(** * Daraz.pk Playwright automation: helpers and the search-results page object

    A shallow embedding of [utils/helpers.js] ([parsePrice], [sleep],
    [dismissPopups], [safeClick]) and of the two resilient operations of
    [pages/SearchResultsPage.js] ([applyPriceFilter], [openProduct]).

    Pure code is embedded as functions.  Code that drives the browser is
    embedded in a small state-and-exception monad: the state is the log of
    the driver calls issued so far, each with its outcome, and the browser
    is an arbitrary deterministic environment that answers a call from the
    log that precedes it.  [console.log]/[console.warn] calls neither fail
    nor influence control flow and are left out. *)

From Stdlib Require Import List ZArith QArith Lia Bool Ascii String.
From Stdlib Require Import Numbers.DecimalString.
From Stdlib Require Numbers.DecimalPos.
Import ListNotations.

Open Scope string_scope.
Open Scope Z_scope.
Open Scope list_scope.

(* ------------------------------------------------------------------ *)
(** ** Strings and numbers as [parsePrice] uses them *)

Module Price.

(** A JavaScript number as [parseFloat] yields it on a run of digits and
    dots: [NaN], or the decimal that was read.  [Num q] stands for the
    double nearest to the rational [q] (infinity past the largest double);
    [q] is kept in lowest terms. *)
Inductive jsnum : Type :=
| NaN
| Num (q : Q).

(** [\d] without the unicode flag: the ten ASCII digits.  Strings are byte
    strings; a non-ASCII character is a sequence of bytes of value 128 or
    more, none of which is a digit, a dot or a comma. *)
Definition is_digit (c : ascii) : bool :=
  ((48 <=? nat_of_ascii c) && (nat_of_ascii c <=? 57))%nat.

Definition is_dot (c : ascii) : bool := Ascii.eqb c ".".

Definition is_comma (c : ascii) : bool := Ascii.eqb c ",".

(** The character class [[\d.]]. *)
Definition in_class (c : ascii) : bool := is_digit c || is_dot c.

(** [text.replace(/,/g, '')]. *)
Fixpoint remove_commas (s : string) : string :=
  match s with
  | EmptyString => EmptyString
  | String c rest =>
      if is_comma c then remove_commas rest else String c (remove_commas rest)
  end.

Fixpoint take_while (p : ascii -> bool) (s : string) : string :=
  match s with
  | EmptyString => EmptyString
  | String c rest => if p c then String c (take_while p rest) else EmptyString
  end.

Fixpoint drop_while (p : ascii -> bool) (s : string) : string :=
  match s with
  | EmptyString => EmptyString
  | String c rest => if p c then drop_while p rest else s
  end.

(** [s.match(/[\d.]+/)], reduced to [match[0]]: the leftmost, longest run
    of characters of the class, [None] for JavaScript's [null]. *)
Fixpoint regex_match (s : string) : option string :=
  match s with
  | EmptyString => None
  | String c rest =>
      if in_class c then Some (take_while in_class s) else regex_match rest
  end.

Definition digit_value (c : ascii) : Z := Z.of_nat (nat_of_ascii c) - 48.

Fixpoint digits_value (acc : Z) (s : string) : Z :=
  match s with
  | EmptyString => acc
  | String c rest => digits_value (10 * acc + digit_value c) rest
  end.

Definition is_empty (s : string) : bool :=
  match s with EmptyString => true | _ => false end.

Fixpoint pow10 (n : nat) : positive :=
  match n with
  | O => 1%positive
  | S n' => (10 * pow10 n')%positive
  end.

(** The decimal [int.frac] as a number: the digits read as one integer,
    over ten to the number of fraction digits. *)
Definition decimal (int frac : string) : jsnum :=
  Num (Qred (Qmake (digits_value 0 (int ++ frac)%string) (pow10 (String.length frac)))).

(** [parseFloat] on the strings [regex_match] can deliver.  Such a string
    has no white space, sign, exponent or letter, so what is left of the
    builtin is: read the longest prefix [digits], [digits.digits] or
    [.digits]; without one the result is [NaN]. *)
Definition parseFloat (s : string) : jsnum :=
  let int := take_while is_digit s in
  match drop_while is_digit s with
  | String "." after =>
      let frac := take_while is_digit after in
      if is_empty int && is_empty frac then NaN else decimal int frac
  | _ => if is_empty int then NaN else decimal int EmptyString
  end.

(** helpers.js, [parsePrice]:
<<
  const match = text.replace(/,/g, '').match(/[\d.]+/);
  return match ? parseFloat(match[0]) : null;
>> *)
Definition parsePrice (text : string) : option jsnum :=
  match regex_match (remove_commas text) with
  | Some m => Some (parseFloat m)
  | None => None
  end.

(** The price parser as the specification words it: after the commas are
    removed, the first maximal run of digits with at most one decimal point
    (a numeric token, so with a digit in it) is read as a number; without
    such a run there is no value. *)
Fixpoint spec_first_token (s : string) : option (string * string) :=
  match s with
  | EmptyString => None
  | String c rest =>
      if is_digit c then
        Some (take_while is_digit s,
              match drop_while is_digit s with
              | String "." after => take_while is_digit after
              | _ => EmptyString
              end)
      else if is_dot c then
        if is_empty (take_while is_digit rest) then spec_first_token rest
        else Some (EmptyString, take_while is_digit rest)
      else spec_first_token rest
  end.

(** Whether a string has a digit at all. *)
Fixpoint has_digit (s : string) : bool :=
  match s with
  | EmptyString => false
  | String c rest => is_digit c || has_digit rest
  end.

Definition spec_parsePrice (text : string) : option jsnum :=
  match spec_first_token (remove_commas text) with
  | Some (int, frac) => Some (decimal int frac)
  | None => None
  end.

End Price.

(* ------------------------------------------------------------------ *)
(** ** The browser driver *)

Module Driver.

(** Times are milliseconds; [timeout / closeSelectors.length] is not an
    integer, so they are rationals. *)
Definition ms := Q.

Inductive PageRef : Type :=
| MainPage
| NewTab (id : nat).

(** [page.locator(sel)], [.first()], [.last()], [.nth(i)]. *)
Inductive Locator : Type :=
| Loc (page : PageRef) (selector : string)
| First (l : Locator)
| Last (l : Locator)
| Nth (l : Locator) (i : Z).

(** A parsed address: [new URL(s)] with its [searchParams], a list of
    name-value pairs in which order and duplicates matter. *)
Record URL : Type := mkURL {
  base : string;
  searchParams : list (string * string);
  hash : string
}.

Record JsError : Type := mkError {
  name : string;
  message : string
}.

(** The driver calls the embedded code awaits. *)
Inductive Call : Type :=
| WaitFor (l : Locator) (state : string) (timeout : ms)
| Click (l : Locator) (timeout : option ms)
| Fill (l : Locator) (value : string)
| Press (l : Locator) (key : string)
| Goto (url : URL) (waitUntil : string) (timeout : ms)
| Count (l : Locator)
| WaitForEvent (event : string)
| WaitForLoadState (page : PageRef) (state : string) (timeout : ms)
| SetTimeout (delay : ms).

(** One entry of the log: the call and how it settled, [None] when its
    promise resolved and [Some e] when it rejected with [e]. *)
Record Event : Type := Ev {
  call : Call;
  outcome : option JsError
}.

Definition Log := list Event.

(** The browser and the site under test: what a call does is a function of
    the log of the calls before it.  [act] settles a call, the other fields
    give the value a resolved query yields. *)
Record Env : Type := mkEnv {
  act : Log -> Call -> option JsError;
  count_of : Log -> Locator -> Z;
  url_of : Log -> URL;
  new_page : Log -> option PageRef
}.

Inductive Result (A : Type) : Type :=
| Ok (a : A)
| Thrown (e : JsError).
Arguments Ok {A} a.
Arguments Thrown {A} e.

(** An async function body: it reads the environment, extends the log, and
    returns or throws. *)
Definition M (A : Type) : Type := Env -> Log -> Result A * Log.

Definition ret {A} (a : A) : M A := fun _ h => (Ok a, h).

Definition throw {A} (e : JsError) : M A := fun _ h => (Thrown e, h).

Definition bind {A B} (m : M A) (k : A -> M B) : M B :=
  fun env h =>
    match m env h with
    | (Ok a, h') => k a env h'
    | (Thrown e, h') => (Thrown e, h')
    end.

(** [try { m } catch (err) { handler err }]. *)
Definition try_catch {A} (m : M A) (handler : JsError -> M A) : M A :=
  fun env h =>
    match m env h with
    | (Ok a, h') => (Ok a, h')
    | (Thrown e, h') => handler e env h'
    end.

(** [await] of a driver call: it is logged with its outcome, and a
    rejection is thrown. *)
Definition await (c : Call) : M unit :=
  fun env h =>
    match act env h c with
    | None => (Ok tt, h ++ [Ev c None])
    | Some e => (Thrown e, h ++ [Ev c (Some e)])
    end.

(** [await locator.count()]. *)
Definition await_count (l : Locator) : M Z :=
  fun env h =>
    match act env h (Count l) with
    | None => (Ok (count_of env h l), h ++ [Ev (Count l) None])
    | Some e => (Thrown e, h ++ [Ev (Count l) (Some e)])
    end.

(** [context.waitForEvent('page').catch(() => null)]: never throws. *)
Definition await_new_page : M (option PageRef) :=
  fun env h =>
    match act env h (WaitForEvent "page") with
    | None => (Ok (new_page env h), h ++ [Ev (WaitForEvent "page") None])
    | Some e => (Ok None, h ++ [Ev (WaitForEvent "page") (Some e)])
    end.

(** A parameter with a default value: [None] is an argument left out. *)
Definition default {A} (d : A) (o : option A) : A :=
  match o with Some v => v | None => d end.

(** [page.url()] with [new URL(...)]: synchronous, not logged. *)
Definition current_url : M URL := fun env h => (Ok (url_of env h), h).

End Driver.

Import Driver.

Declare Scope js_scope.
Delimit Scope js_scope with js.
Notation "x <- m ;; k" := (bind m (fun x => k))
  (at level 61, m at next level, right associativity) : js_scope.
Notation "m ;; k" := (bind m (fun _ => k))
  (at level 61, right associativity) : js_scope.
Open Scope js_scope.

(** [URLSearchParams]: [get] yields the value of the first pair of that
    name; [set] puts the value in the first pair of that name and removes
    the other pairs of that name, or appends a pair when there is none. *)
Module URLSearchParams.

Definition has_name (name : string) (p : string * string) : bool :=
  String.eqb (fst p) name.

Fixpoint get (params : list (string * string)) (name : string) : option string :=
  match params with
  | [] => None
  | p :: rest => if has_name name p then Some (snd p) else get rest name
  end.

Definition others (name : string) (params : list (string * string)) :=
  filter (fun p => negb (has_name name p)) params.

Fixpoint set (params : list (string * string)) (name value : string) :=
  match params with
  | [] => [(name, value)]
  | p :: rest =>
      if has_name name p then (name, value) :: others name rest
      else p :: set rest name value
  end.

Definition occurrences (name : string) (params : list (string * string)) : nat :=
  List.length (filter (has_name name) params).

End URLSearchParams.

(* ------------------------------------------------------------------ *)
(** ** config/constants.js *)

Module Constants.

Definition PRICE_MIN : Z := 500.
Definition PRICE_MAX : Z := 5000.
Definition FILTER_WAIT : ms := 3000%Q.
Definition RESULTS_WAIT : ms := 4000%Q.

End Constants.

(* ------------------------------------------------------------------ *)
(** ** utils/helpers.js *)

Module Helpers.

(** The double-quote character of the selector literals. *)
Definition dq : string := String (ascii_of_nat 34) EmptyString.

(** [sleep(ms)]: a promise that [setTimeout] resolves; it cannot reject. *)
Definition sleep (delay : ms) : M unit :=
  fun _ h => (Ok tt, h ++ [Ev (SetTimeout delay) None]).

Definition closeSelectors : list string :=
  [ ("[data-spm=" ++ dq ++ "close" ++ dq ++ "]")%string;
    ".close-btn";
    ".lazyload-wrapper .close";
    ".next-dialog-close";
    ("button[aria-label=" ++ dq ++ "Close" ++ dq ++ "]")%string;
    ".mod-close";
    ".popup-close" ].

(** The body of the [for (const selector of closeSelectors)] loop of
    [dismissPopups]: [true] when the [return] inside the [try] was reached,
    [false] when the [catch] swallowed an error. *)
Definition try_dismiss (page : PageRef) (each : ms) (selector : string) : M bool :=
  try_catch
    (let btn := First (Loc page selector) in
     await (WaitFor btn "visible" each) ;;
     await (Click btn None) ;;
     ret true)
    (fun _ => ret false).

Fixpoint dismiss_loop (page : PageRef) (each : ms) (selectors : list string) : M unit :=
  match selectors with
  | [] => ret tt
  | selector :: rest =>
      returned <- try_dismiss page each selector ;;
      if returned : bool then ret tt else dismiss_loop page each rest
  end.

(** [async function dismissPopups(page, timeout = 4000)]. *)
Definition dismissPopups (page : PageRef) (timeout : option ms) : M unit :=
  let timeout := default 4000%Q timeout in
  dismiss_loop page
    (timeout / inject_Z (Z.of_nat (List.length closeSelectors)))%Q
    closeSelectors.

(** The values [attempt] takes in
    [for (let attempt = 1; attempt <= retries; attempt++)]. *)
Definition attempts (retries : Z) : list Z :=
  map Z.of_nat (seq 1 (Z.to_nat retries)).

Fixpoint safeClick_loop (locator : Locator) (retries : Z) (todo : list Z) : M unit :=
  match todo with
  | [] => ret tt
  | attempt :: rest =>
      try_catch
        (await (Click locator (Some 8000%Q)))
        (fun err =>
           if attempt =? retries then throw err
           else sleep 1000%Q ;; safeClick_loop locator retries rest)
  end.

(** [async function safeClick(locator, retries = 3)]. *)
Definition safeClick (locator : Locator) (retries : option Z) : M unit :=
  let retries := default 3 retries in
  safeClick_loop locator retries (attempts retries).

End Helpers.

(* ------------------------------------------------------------------ *)
(** ** pages/SearchResultsPage.js *)

Module SearchResultsPage.

Import Helpers Constants.

Record t : Type := mk {
  page : PageRef;
  productCards : Locator;
  priceMinInput : Locator;
  priceMaxInput : Locator;
  priceApplyBtn : Locator
}.

(** [constructor(page)], with the locators the two operations use. *)
Definition constructor (page : PageRef) : t :=
  {| page := page;
     productCards :=
       Loc page (".product-card, [data-qa-locator=" ++ dq ++ "product-item" ++ dq
                 ++ "], .item--ZJRDn, li[class*=" ++ dq ++ "product" ++ dq ++ "]")%string;
     priceMinInput :=
       First (Loc page ("input[placeholder*=" ++ dq ++ "Min" ++ dq ++ "], input[name="
                        ++ dq ++ "min_price" ++ dq ++ "], .price-range-filter input")%string);
     priceMaxInput :=
       Last (Loc page ("input[placeholder*=" ++ dq ++ "Max" ++ dq ++ "], input[name="
                       ++ dq ++ "max_price" ++ dq ++ "], .price-range-filter input")%string);
     priceApplyBtn :=
       First (Loc page ("button[data-qa-locator=" ++ dq ++ "filter-price-button" ++ dq
                        ++ "], button.price-filter-btn, .price-range-filter button")%string) |}.

(** The integers a JavaScript number holds exactly, one by one:
    [Number.isSafeInteger]. *)
Definition safe_integer (n : Z) : Prop := - 2 ^ 53 < n < 2 ^ 53.

(** [String(n)] and [`${n}`] for a safe integer [n]: there JavaScript
    prints the integer digit for digit.  Past that bound it prints the
    shortest digits that give the number back, filled up with zeros, and
    from 10^21 on an exponent, so what is proved of the printed text is
    proved of safe integers. *)
Definition String_of (n : Z) : string := NilZero.string_of_int (Z.to_int n).

(** The range as the template literal [`${min}-${max}`] writes it. *)
Definition range_text (min max : Z) : string :=
  (String_of min ++ "-" ++ String_of max)%string.

(** The [try] block of [applyPriceFilter]: the sidebar inputs. *)
Definition sidebar_path (this : t) (min max : Z) : M unit :=
  await (WaitFor (priceMinInput this) "visible" 8000%Q) ;;
  await (Fill (priceMinInput this) (String_of min)) ;;
  await (Fill (priceMaxInput this) (String_of max)) ;;
  try_catch
    (await (Click (priceApplyBtn this) (Some 5000%Q)))
    (fun _ => await (Press (priceMinInput this) "Enter")).

(** [url.searchParams.set('price', `${min}-${max}`)] on the parsed current
    address. *)
Definition price_url (current : URL) (min max : Z) : URL :=
  {| base := base current;
     searchParams := URLSearchParams.set (searchParams current) "price" (range_text min max);
     hash := hash current |}.

(** The [catch] block of [applyPriceFilter]: the address. *)
Definition url_path (min max : Z) : M unit :=
  url <- current_url ;;
  await (Goto (price_url url min max) "domcontentloaded" 30000%Q).

(** [async applyPriceFilter(min = PRICE_MIN, max = PRICE_MAX)]. *)
Definition applyPriceFilter (this : t) (min max : option Z) : M unit :=
  let min := default PRICE_MIN min in
  let max := default PRICE_MAX max in
  try_catch (sidebar_path this min max) (fun _ => url_path min max) ;;
  sleep RESULTS_WAIT ;;
  dismissPopups (page this) None.

Definition no_products_error : JsError :=
  {| name := "Error"; message := "No products found to open" |}.

(** [async openProduct(index = 0)].  Of the two promises of [Promise.all]
    the click decides whether the call goes on: when it rejects, so does
    [Promise.all].  The wait for a new tab cannot reject, because of its
    [catch]; it is logged where its result is read, after the click. *)
Definition openProduct (this : t) (index : option Z) : M PageRef :=
  let index := default 0 index in
  await (WaitFor (First (productCards this)) "visible" 15000%Q) ;;
  let cards := productCards this in
  count <- await_count cards ;;
  if count =? 0 then throw no_products_error
  else
    let safeIndex := Z.min index (count - 1) in
    let card := Nth cards safeIndex in
    await (Click card (Some 10000%Q)) ;;
    newPage <- await_new_page ;;
    match newPage with
    | Some tab =>
        await (WaitForLoadState tab "domcontentloaded" 30000%Q) ;;
        ret tab
    | None =>
        await (WaitForLoadState (page this) "domcontentloaded" 30000%Q) ;;
        ret (page this)
    end.

End SearchResultsPage.

Import Price Helpers Constants SearchResultsPage.

(* ------------------------------------------------------------------ *)
(** ** Vocabulary for the logs *)

Module Logs.

Definition is_click (ev : Event) : bool :=
  match call ev with Click _ _ => true | _ => false end.

Definition is_wait (ev : Event) : bool :=
  match call ev with WaitFor _ _ _ => true | _ => false end.

Definition is_goto (ev : Event) : bool :=
  match call ev with Goto _ _ _ => true | _ => false end.

Definition is_settle (ev : Event) : bool :=
  match call ev with SetTimeout _ => true | _ => false end.

Definition resolved (ev : Event) : bool :=
  match outcome ev with None => true | Some _ => false end.

(** Click attempts in a log, and those that resolved. *)
Definition clicks (h : Log) : nat := List.length (filter is_click h).

Definition resolved_clicks (h : Log) : nat :=
  List.length (filter (fun ev => is_click ev && resolved ev) h).

Definition gotos (h : Log) : nat := List.length (filter is_goto h).

(** *** [dismissPopups] *)

(** How one selector strategy can fail to dismiss anything. *)
Inductive Miss : Type :=
| NotVisible (e : JsError)
| ClickFailed (e : JsError).

Definition miss_events (page : PageRef) (each : ms) (selector : string) (m : Miss) : Log :=
  let btn := First (Loc page selector) in
  match m with
  | NotVisible e => [Ev (WaitFor btn "visible" each) (Some e)]
  | ClickFailed e => [Ev (WaitFor btn "visible" each) None; Ev (Click btn None) (Some e)]
  end.

Definition hit_events (page : PageRef) (each : ms) (selector : string) : Log :=
  let btn := First (Loc page selector) in
  [Ev (WaitFor btn "visible" each) None; Ev (Click btn None) None].

(** The logs a scan of the strategies can leave: misses on a prefix of the
    list, in order, and then either the list is used up or the next
    strategy is waited for, clicked, and ends the scan. *)
Inductive PopupScan (page : PageRef) (each : ms) : list string -> Log -> Prop :=
| scan_none : PopupScan page each [] []
| scan_hit selector rest :
    PopupScan page each (selector :: rest) (hit_events page each selector)
| scan_miss selector rest m tr :
    PopupScan page each rest tr ->
    PopupScan page each (selector :: rest) (miss_events page each selector m ++ tr).

(** The scan as the specification words it: once a strategy has become
    visible, no further strategy is waited for. *)
Fixpoint stops_at_first_visible (tr : Log) : bool :=
  match tr with
  | [] => true
  | ev :: rest =>
      if is_wait ev && resolved ev then negb (existsb is_wait rest)
      else stops_at_first_visible rest
  end.

(** *** [openProduct] *)

(** The wait [openProduct] starts with. *)
Definition first_card_wait (this : SearchResultsPage.t) : Call :=
  WaitFor (First (productCards this)) "visible" 15000%Q.

(** *** [safeClick] *)

Definition the_click (locator : Locator) : Call := Click locator (Some 8000%Q).

(** An action that, counted from the log [h0], rejects its first [k]
    invocations (the [i]-th with [errs i]) and resolves from then on. *)
Definition fails_then_succeeds (env : Env) (h0 : Log) (locator : Locator)
    (k : nat) (errs : nat -> JsError) : Prop :=
  forall h, act env (h0 ++ h) (the_click locator)
            = if (clicks h <? k)%nat then Some (errs (clicks h)) else None.

Definition always_fails (env : Env) (h0 : Log) (locator : Locator)
    (errs : nat -> JsError) : Prop :=
  forall h, act env (h0 ++ h) (the_click locator) = Some (errs (clicks h)).

(** [n] failed attempts, the first rejecting with [errs i], each followed
    by the delay. *)
Fixpoint failed_attempts (locator : Locator) (errs : nat -> JsError) (i n : nat) : Log :=
  match n with
  | O => []
  | S n' =>
      Ev (the_click locator) (Some (errs i))
      :: Ev (SetTimeout 1000%Q) None
      :: failed_attempts locator errs (S i) n'
  end.

End Logs.

(* ------------------------------------------------------------------ *)
(** ** Browsers to run the code against *)

Module Scenarios.

Import Logs.

Definition timeout_error : JsError :=
  {| name := "TimeoutError"; message := "Timeout exceeded" |}.

Definition detached_error (i : nat) : JsError :=
  {| name := "Error";
     message := ("Element is not attached to the DOM, attempt "
                 ++ NilZero.string_of_uint (Nat.to_uint i))%string |}.

Definition results_url : URL :=
  {| base := "https://www.daraz.pk/catalog/";
     searchParams := [("q", "electronics"); ("price", "0-100"); ("page", "2"); ("price", "7-9")];
     hash := "" |}.

(** A browser from its [act]; the page has no product, stays on
    [results_url] and opens no tab. *)
Definition browser (act : Log -> Call -> option JsError) : Env :=
  {| act := act;
     count_of := fun _ _ => 0;
     url_of := fun _ => results_url;
     new_page := fun _ => None |}.

(** Every call resolves. *)
Definition all_resolve : Env := browser (fun _ _ => None).

(** Every call rejects with a timeout. *)
Definition all_time_out : Env := browser (fun _ _ => Some timeout_error).

(** Clicks reject until [k] of them have been tried; all else resolves. *)
Definition flaky_clicks (k : nat) : Env :=
  browser (fun h c =>
             match c with
             | Click _ _ => if (clicks h <? k)%nat then Some (detached_error (clicks h)) else None
             | _ => None
             end).

(** Every click rejects; all else resolves. *)
Definition dead_clicks : Env :=
  browser (fun h c =>
             match c with
             | Click _ _ => Some (detached_error (clicks h))
             | _ => None
             end).

(** The sidebar inputs are visible but cannot be filled. *)
Definition fill_rejects : Env :=
  browser (fun _ c => match c with Fill _ _ => Some timeout_error | _ => None end).

(** A results page that never changes and shows [n] products, all visible:
    waiting for the first of them times out when there is none, a click on
    a product outside [0 .. n-1] times out, and [count()] is [n]. *)
Definition static_results (n : Z) : Env :=
  {| act := fun _ c =>
              match c with
              | WaitFor (First _) _ _ => if 0 <? n then None else Some timeout_error
              | Click (Nth _ i) _ =>
                  if (0 <=? i) && (i <? n) then None else Some timeout_error
              | _ => None
              end;
     count_of := fun _ _ => n;
     url_of := fun _ => results_url;
     new_page := fun _ => None |}.

End Scenarios.

Import Logs Scenarios.

(* ------------------------------------------------------------------ *)
(** ** Reading the page, and [expect] *)

Module Reads.

(** What the read-only queries of a locator answer.  They are no actions
    of the log: a query is answered from the log of the calls before it,
    resolves or rejects, and leaves the log as it is.  The text content of
    an element is a string. *)
Record Page : Type := mkPage {
  text_content : Log -> Locator -> option ms -> Result string;
  is_visible : Log -> Locator -> Result bool
}.

Definition read {A} (q : Log -> Result A) : M A := fun _ h => (q h, h).

(** [await l.textContent(options)]. *)
Definition textContent (pg : Page) (l : Locator) (timeout : option ms) : M string :=
  read (fun h => text_content pg h l timeout).

(** [await l.textContent().catch(() => '')]. *)
Definition text_or_empty (pg : Page) (l : Locator) : M string :=
  try_catch (textContent pg l None) (fun _ => ret EmptyString).

(** [await l.isVisible().catch(() => false)]. *)
Definition visible_or_false (pg : Page) (l : Locator) : M bool :=
  try_catch (read (fun h => is_visible pg h l)) (fun _ => ret false).

(** The values of [i] in [for (let i = 0; i < n; i++)]. *)
Definition indices_below (n : Z) : list Z := map Z.of_nat (seq 0 (Z.to_nat n)).

(** The error a failed [expect(received).matcher(expected)] throws; of its
    message only the first line, which names the matcher, is kept. *)
Definition matcher_error (matcher : string) : JsError :=
  {| name := "Error";
     message := ("expect(received)." ++ matcher ++ "(expected)")%string |}.

Definition expect_that (holds : bool) (matcher : string) : M unit :=
  if holds then ret tt else throw (matcher_error matcher).

(** [received > expected], [>=] and [<=] on numbers: with [NaN] every
    comparison is false.  A parsed number [Num q] stands for the double
    nearest to [q]; what is proved of a comparison on parsed text is stated
    where that rounding cannot change its outcome. *)
Definition num_gt (received : jsnum) (expected : Q) : bool :=
  match received with NaN => false | Num q => negb (Qle_bool q expected) end.

Definition num_ge (received : jsnum) (expected : Q) : bool :=
  match received with NaN => false | Num q => Qle_bool expected q end.

Definition num_le (received : jsnum) (expected : Q) : bool :=
  match received with NaN => false | Num q => Qle_bool q expected end.

(** [text.includes(keyword)]. *)
Fixpoint includes (text keyword : string) : bool :=
  String.prefix keyword text
  || match text with
     | EmptyString => false
     | String _ rest => includes rest keyword
     end.

End Reads.

(* ------------------------------------------------------------------ *)
(** ** config/constants.js, the other entries *)

Module Config.

Definition BASE_URL : URL :=
  {| base := "https://www.daraz.pk"; searchParams := []; hash := "" |}.

Definition TARGET_BRANDS : list string :=
  ["Samsung"; "Xiaomi"; "Audionic"; "Anker"; "Sony"].

Definition MIN_PRODUCT_COUNT : Z := 1.

Definition FREE_SHIPPING_KEYWORDS : list string :=
  ["free shipping"; "free delivery"; "free"].

End Config.

(* ------------------------------------------------------------------ *)
(** ** utils/helpers.js, [assertPricesInRange] *)

Module PriceChecks.

Import Reads.

(** [prices.forEach((price, idx) => { expect(price).toBeGreaterThanOrEqual(min);
    expect(price).toBeLessThanOrEqual(max); })]: the first failed
    expectation throws out of the loop. *)
Fixpoint assertPricesInRange (prices : list jsnum) (min max : Z) : M unit :=
  match prices with
  | [] => ret tt
  | price :: rest =>
      expect_that (num_ge price (inject_Z min)) "toBeGreaterThanOrEqual" ;;
      expect_that (num_le price (inject_Z max)) "toBeLessThanOrEqual" ;;
      assertPricesInRange rest min max
  end.

End PriceChecks.

(* ------------------------------------------------------------------ *)
(** ** pages/SearchResultsPage.js, the other methods *)

Module ResultsPage.

Import Reads Config PriceChecks.

(** [this.productPrices], as the constructor sets it. *)
Definition productPrices (this : SearchResultsPage.t) : Locator :=
  Loc (page this) (".price--NVB62, [data-qa-locator=" ++ dq ++ "product-price" ++ dq
                   ++ "], .product-price")%string.

(** The locator of a brand's checkbox or label in the sidebar. *)
Definition brandLocator (this : SearchResultsPage.t) (brand : string) : Locator :=
  First (Loc (page this)
           ("label:has-text(" ++ dq ++ brand ++ dq ++ "), .checkbox-item:has-text("
            ++ dq ++ brand ++ dq ++ "), [data-qa-locator*=" ++ dq ++ "brand" ++ dq
            ++ "] >> text=" ++ dq ++ brand ++ dq)%string).

(** The loop [for (const brand of TARGET_BRANDS)] of [applyBrandFilter],
    with the [return null] after it. *)
Fixpoint brand_loop (pg : Page) (this : SearchResultsPage.t) (brands : list string)
    : M (option string) :=
  match brands with
  | [] => ret None
  | brand :: rest =>
      let brandLocator := brandLocator this brand in
      isVisible <- visible_or_false pg brandLocator ;;
      if isVisible : bool then
        await (Click brandLocator None) ;;
        sleep RESULTS_WAIT ;;
        ret (Some brand)
      else brand_loop pg this rest
  end.

(** [async applyBrandFilter()]. *)
Definition applyBrandFilter (pg : Page) (this : SearchResultsPage.t) : M (option string) :=
  sleep FILTER_WAIT ;;
  dismissPopups (page this) None ;;
  brand_loop pg this TARGET_BRANDS.

(** [async countProducts()]. *)
Definition countProducts (this : SearchResultsPage.t) : M Z :=
  try_catch
    (await (WaitFor (First (productCards this)) "visible" 15000%Q))
    (fun _ => ret tt) ;;
  count <- await_count (productCards this) ;;
  ret count.

(** [async assertProductCountGreaterThan(minimum = MIN_PRODUCT_COUNT)]. *)
Definition assertProductCountGreaterThan (this : SearchResultsPage.t)
    (minimum : option Z) : M Z :=
  let minimum := default MIN_PRODUCT_COUNT minimum in
  count <- countProducts this ;;
  expect_that (minimum <? count) "toBeGreaterThan" ;;
  ret count.

(** The loop [for (let i = 0; i < checkCount; i++)] of
    [assertPricesWithinRange], which pushes onto [prices]. *)
Fixpoint collect_prices (pg : Page) (this : SearchResultsPage.t) (todo : list Z)
    (prices : list jsnum) : M (list jsnum) :=
  match todo with
  | [] => ret prices
  | i :: rest =>
      text <- text_or_empty pg (Nth (productPrices this) i) ;;
      match parsePrice text with
      | Some price => collect_prices pg this rest (prices ++ [price])
      | None => collect_prices pg this rest prices
      end
  end.

(** [async assertPricesWithinRange(min = PRICE_MIN, max = PRICE_MAX,
    sampleSize = 10)]. *)
Definition assertPricesWithinRange (pg : Page) (this : SearchResultsPage.t)
    (min max sampleSize : option Z) : M unit :=
  let min := default PRICE_MIN min in
  let max := default PRICE_MAX max in
  let sampleSize := default 10 sampleSize in
  count <- await_count (productPrices this) ;;
  let checkCount := Z.min count sampleSize in
  prices <- collect_prices pg this (indices_below checkCount) [] ;;
  if (List.length prices =? 0)%nat then ret tt
  else assertPricesInRange prices min max.

End ResultsPage.

(* ------------------------------------------------------------------ *)
(** ** pages/ProductDetailPage.js *)

Module ProductDetailPage.

Import Reads Config.

Record t : Type := mk {
  page : PageRef;
  productPrice : Locator;
  shippingSection : Locator;
  pageBody : Locator;
  addToCartBtn : Locator
}.

(** [constructor(page)], with the locators the embedded methods use. *)
Definition constructor (page : PageRef) : t :=
  {| page := page;
     productPrice :=
       First (Loc page (".pdp-price, .product-price, [class*=" ++ dq ++ "pdp-mod-price"
                        ++ dq ++ "]")%string);
     shippingSection :=
       Loc page (".delivery-option-item, [class*=" ++ dq ++ "free-delivery" ++ dq ++ "], "
                 ++ "[class*=" ++ dq ++ "shipping" ++ dq ++ "], .service-item, "
                 ++ ".pdp-delivery-item, [data-qa-locator*=" ++ dq ++ "delivery" ++ dq
                 ++ "]")%string;
     pageBody := Loc page "body";
     addToCartBtn :=
       First (Loc page ("button[data-spm=" ++ dq ++ "add-to-cart" ++ dq
                        ++ "], .add-to-cart, [class*=" ++ dq ++ "btn-add-to-cart" ++ dq
                        ++ "]")%string) |}.

(** [async waitForPageLoad()]. *)
Definition waitForPageLoad (this : t) : M unit :=
  await (WaitForLoadState (page this) "domcontentloaded" 30000%Q) ;;
  sleep 2000%Q ;;
  dismissPopups (page this) None.

(** [async getProductPrice()]. *)
Definition getProductPrice (pg : Page) (this : t) : M (option jsnum) :=
  try_catch
    (text <- textContent pg (productPrice this) (Some 8000%Q) ;;
     ret (parsePrice text))
    (fun _ => ret None).

(** What [this.productPrice.textContent({ timeout: 8_000 })] settles to. *)
Definition text_content_of_price (pg : Page) (this : t) (h : Log) : Result string :=
  text_content pg h (productPrice this) (Some 8000%Q).

(** [async assertProductPriceVisible()]. *)
Definition assertProductPriceVisible (pg : Page) (this : t) : M unit :=
  price <- getProductPrice pg this ;;
  match price with
  | Some price => expect_that (num_gt price 0%Q) "toBeGreaterThan"
  | None => ret tt
  end.

(** [FREE_SHIPPING_KEYWORDS.some((kw) => text.includes(kw))]. *)
Definition some_keyword (text : string) : bool :=
  existsb (includes text) FREE_SHIPPING_KEYWORDS.

(** The loop over the shipping widgets of [isFreeShippingAvailable]:
    [true] when its [return true] was reached.  [toLowerCase] is the
    string method of that name. *)
Fixpoint widget_loop (toLowerCase : string -> string) (pg : Page) (this : t)
    (todo : list Z) : M bool :=
  match todo with
  | [] => ret false
  | i :: rest =>
      text <- text_or_empty pg (Nth (shippingSection this) i) ;;
      if some_keyword (toLowerCase text) then ret true
      else widget_loop toLowerCase pg this rest
  end.

(** [async isFreeShippingAvailable()]. *)
Definition isFreeShippingAvailable (toLowerCase : string -> string) (pg : Page)
    (this : t) : M bool :=
  widgetCount <- await_count (shippingSection this) ;;
  returned <- widget_loop toLowerCase pg this (indices_below widgetCount) ;;
  if returned : bool then ret true
  else
    bodyText <- text_or_empty pg (pageBody this) ;;
    ret (some_keyword (toLowerCase bodyText)).

(** [async assertFreeShippingAvailable()]. *)
Definition assertFreeShippingAvailable (toLowerCase : string -> string) (pg : Page)
    (this : t) : M unit :=
  available <- isFreeShippingAvailable toLowerCase pg this ;;
  expect_that available "toBe".

(** [async softCheckFreeShipping()]. *)
Definition softCheckFreeShipping (toLowerCase : string -> string) (pg : Page)
    (this : t) : M bool :=
  available <- isFreeShippingAvailable toLowerCase pg this ;;
  ret available.

(** [async assertAddToCartVisible()]. *)
Definition assertAddToCartVisible (this : t) : M unit :=
  try_catch
    (await (WaitFor (addToCartBtn this) "visible" 8000%Q))
    (fun _ => ret tt).

End ProductDetailPage.

(* ------------------------------------------------------------------ *)
(** ** pages/HomePage.js *)

Module HomePage.

Import Config.

(** [async goto()], on the page the object was built for. *)
Definition goto (page : PageRef) : M unit :=
  await (Goto BASE_URL "domcontentloaded" 40000%Q) ;;
  try_catch
    (await (WaitForLoadState page "networkidle" 30000%Q))
    (fun _ => ret tt) ;;
  dismissPopups page None.

End HomePage.

(* ------------------------------------------------------------------ *)
(** ** Vocabulary for the other methods *)

Module Notions.

Import Reads ResultsPage.

(** Whether the first character of the class [[\d.]] in a string is a dot
    with no digit right after it. *)
Fixpoint starts_with_bare_dot (s : string) : bool :=
  match s with
  | EmptyString => false
  | String c rest =>
      if is_digit c then false
      else if is_dot c then is_empty (take_while is_digit rest)
      else starts_with_bare_dot rest
  end.

(** Whether a string has a character of the class [[\d.]]. *)
Fixpoint has_class_char (s : string) : bool :=
  match s with
  | EmptyString => false
  | String c rest => in_class c || has_class_char rest
  end.

(** The time the waits of a log were given, added up. *)
Fixpoint waited (tr : Log) : Q :=
  match tr with
  | [] => 0
  | ev :: rest =>
      match call ev with
      | WaitFor _ _ timeout => timeout + waited rest
      | _ => waited rest
      end
  end.

(** A price that is a number between two bounds. *)
Definition in_range (min max : Z) (price : jsnum) : Prop :=
  exists q, price = Num q /\ (inject_Z min <= q)%Q /\ (q <= inject_Z max)%Q.

(** A price that is no number, or a number at least one below the lower
    bound or at least one above the upper bound. *)
Definition far_out (min max : Z) (price : jsnum) : Prop :=
  price = NaN
  \/ exists q, price = Num q
               /\ ((q <= inject_Z (min - 1))%Q \/ (inject_Z (max + 1) <= q)%Q).

(** The smallest positive double, 2^-1074: a decimal that is at least this
    large is read as a number above zero. *)
Definition smallest_double : Q := 1 # (2 ^ 1074).

(** The text [textContent().catch(() => '')] yields for a locator. *)
Definition label_text (pg : Page) (h : Log) (l : Locator) : string :=
  match text_content pg h l None with
  | Ok text => text
  | Thrown _ => EmptyString
  end.

(** The prices [parsePrice] finds in the first [n] price labels, those
    for which it answers [null] left out. *)
Definition sampled_prices (pg : Page) (this : SearchResultsPage.t) (h : Log) (n : Z)
    : list jsnum :=
  flat_map (fun i => match parsePrice (label_text pg h (Nth (productPrices this) i)) with
                     | Some price => [price]
                     | None => []
                     end)
           (indices_below n).

(** What [isVisible().catch(() => false)] yields for a brand's label. *)
Definition brand_visible (pg : Page) (this : SearchResultsPage.t) (h : Log)
    (brand : string) : bool :=
  match is_visible pg h (brandLocator this brand) with
  | Ok visible => visible
  | Thrown _ => false
  end.

(** A page of labels: every locator reads [text], and nothing is visible. *)
Definition page_of_text (text : string) : Page :=
  {| text_content := fun _ _ _ => Ok text;
     is_visible := fun _ _ => Ok false |}.

(** A sidebar in which the brands of the list [shown] are visible. *)
Definition page_of_brands (this : SearchResultsPage.t) (shown : list string) : Page :=
  {| text_content := fun _ _ _ => Thrown timeout_error;
     is_visible := fun _ l =>
       Ok (existsb (fun brand =>
                      match l, brandLocator this brand with
                      | First (Loc _ a), First (Loc _ b) => String.eqb a b
                      | _, _ => false
                      end) shown) |}.

End Notions.

(* ------------------------------------------------------------------ *)
(** * Properties of [parsePrice] *)

Section PriceFacts.

Lemma is_dot_eq (c : ascii) : is_dot c = true -> c = "."%char.
Proof. unfold is_dot. apply Ascii.eqb_eq. Qed.

Lemma digit_not_dot (c : ascii) : is_digit c = true -> is_dot c = false.
Proof.
  intros Hd. destruct (is_dot c) eqn:E; [|reflexivity].
  apply is_dot_eq in E. subst c. discriminate Hd.
Qed.

Lemma digit_in_class (c : ascii) : is_digit c = true -> in_class c = true.
Proof. unfold in_class. intros ->. reflexivity. Qed.

Lemma take_digit_of_run (s : string) :
  take_while is_digit (take_while in_class s) = take_while is_digit s.
Proof.
  destruct s as [|c s]; [reflexivity|]. simpl.
  destruct (is_digit c) eqn:Hd.
  - rewrite (digit_in_class _ Hd). simpl. rewrite Hd. f_equal.
    revert c Hd. induction s as [|d s IH]; intros c Hc; [reflexivity|].
    simpl. destruct (is_digit d) eqn:Hd'.
    + rewrite (digit_in_class _ Hd'). simpl. rewrite Hd'. f_equal. eapply IH; eauto.
    + destruct (in_class d); simpl; [rewrite Hd'|]; reflexivity.
  - destruct (in_class c); simpl; [rewrite Hd|]; reflexivity.
Qed.

Lemma drop_digit_of_run (s : string) :
  drop_while is_digit (take_while in_class s)
  = take_while in_class (drop_while is_digit s).
Proof.
  induction s as [|c s IH]; [reflexivity|]. simpl.
  destruct (is_digit c) eqn:Hd.
  - rewrite (digit_in_class _ Hd). simpl. rewrite Hd. exact IH.
  - simpl. destruct (in_class c); simpl; [rewrite Hd|]; reflexivity.
Qed.

(** What [parseFloat] makes of the run [regex_match] found in [s], read off
    [s] itself. *)
Lemma regex_match_digit (c : ascii) (s : string) :
  is_digit c = true ->
  option_map parseFloat (regex_match (String c s))
  = Some (decimal (take_while is_digit (String c s))
            match drop_while is_digit (String c s) with
            | String "." after => take_while is_digit after
            | _ => EmptyString
            end).
Proof.
  intros Hd. cbn [regex_match]. rewrite (digit_in_class _ Hd).
  cbn [option_map]. f_equal. unfold parseFloat.
  rewrite take_digit_of_run, drop_digit_of_run.
  assert (Hne : is_empty (take_while is_digit (String c s)) = false)
    by (simpl; rewrite Hd; reflexivity).
  rewrite Hne. simpl andb.
  destruct (drop_while is_digit (String c s)) as [|d r] eqn:Hr; [reflexivity|].
  assert (Hnd : is_digit d = false).
  { clear Hne. revert c Hd Hr. induction s as [|e s IH]; intros c Hc Hr.
    - simpl in Hr. rewrite Hc in Hr. discriminate.
    - simpl in Hr. rewrite Hc in Hr. destruct (is_digit e) eqn:He.
      + apply (IH e He). simpl. rewrite He. exact Hr.
      + inversion Hr; subst. exact He. }
  cbn [take_while]. unfold in_class at 1. rewrite Hnd. simpl orb.
  destruct (is_dot d) eqn:Hdot.
  - apply is_dot_eq in Hdot. subst d. rewrite take_digit_of_run. reflexivity.
  - destruct d as [[] [] [] [] [] [] [] []]; try reflexivity; discriminate Hdot.
Qed.

Lemma regex_match_dot (s : string) :
  option_map parseFloat (regex_match (String "." s))
  = Some (if is_empty (take_while is_digit s) then NaN
          else decimal EmptyString (take_while is_digit s)).
Proof.
  cbn [regex_match]. change (in_class ".") with true. cbn [option_map]. f_equal.
  unfold parseFloat. cbn [take_while]. change (in_class ".") with true.
  cbn [take_while drop_while]. change (is_digit ".") with false.
  cbn [is_empty andb]. rewrite take_digit_of_run. reflexivity.
Qed.

(** The code and the specification's reading agree on every string on
    which the code does not yield [NaN]. *)
Lemma regex_parse_agrees (s : string) :
  option_map parseFloat (regex_match s) <> Some NaN ->
  option_map parseFloat (regex_match s)
  = match spec_first_token s with
    | Some (int, frac) => Some (decimal int frac)
    | None => None
    end.
Proof.
  induction s as [|c s IH]; intros Hnan; [reflexivity|].
  destruct (is_digit c) eqn:Hd.
  - rewrite (regex_match_digit c s Hd). cbn [spec_first_token]. rewrite Hd. reflexivity.
  - destruct (is_dot c) eqn:Hdot.
    + apply is_dot_eq in Hdot. subst c. rewrite regex_match_dot in *.
      cbn [spec_first_token]. change (is_digit ".") with false.
      change (is_dot ".") with true. cbv iota.
      destruct (is_empty (take_while is_digit s)); [congruence | reflexivity].
    + cbn [spec_first_token regex_match] in *. unfold in_class in *.
      rewrite Hd, Hdot in *. simpl orb in *. cbv iota in *. auto.
Qed.

Lemma parsePrice_as_option_map (text : string) :
  parsePrice text = option_map parseFloat (regex_match (remove_commas text)).
Proof. unfold parsePrice. destruct (regex_match _); reflexivity. Qed.

Theorem parsePrice_agrees_unless_NaN (text : string) :
  parsePrice text <> Some NaN -> parsePrice text = spec_parsePrice text.
Proof.
  rewrite parsePrice_as_option_map. unfold spec_parsePrice. apply regex_parse_agrees.
Qed.

Lemma decimal_is_Num (int frac : string) : decimal int frac <> NaN.
Proof. unfold decimal. discriminate. Qed.

(** The specification's reading never yields [NaN]. *)
Lemma spec_parsePrice_not_NaN (text : string) : spec_parsePrice text <> Some NaN.
Proof.
  unfold spec_parsePrice. destruct (spec_first_token _) as [[i f]|]; [|discriminate].
  intros H. inversion H.
Qed.

(** The four entries of the specification's table. *)
Example parsePrice_table :
  parsePrice "PKR 1,299" = Some (Num 1299)
  /\ parsePrice "12.50" = Some (Num (25 # 2))
  /\ parsePrice "" = None
  /\ parsePrice "Free" = None.
Proof. repeat split; reflexivity. Qed.

Lemma take_digit_empty_no_digit (s : string) :
  has_digit s = false -> is_empty (take_while is_digit s) = true.
Proof.
  destruct s as [|c s]; [reflexivity|]. simpl. intros H.
  apply orb_false_iff in H. destruct H as [-> _]. reflexivity.
Qed.

Lemma spec_token_none_iff (s : string) :
  spec_first_token s = None <-> has_digit s = false.
Proof.
  induction s as [|c s IH]; [split; reflexivity|].
  cbn [spec_first_token has_digit]. destruct (is_digit c) eqn:Hd.
  - split; discriminate.
  - simpl orb. destruct (is_dot c).
    + destruct (is_empty (take_while is_digit s)) eqn:He; [exact IH|].
      split; [discriminate|]. intros H.
      rewrite (take_digit_empty_no_digit _ H) in He. discriminate.
    + exact IH.
Qed.

(** Without a digit the code yields no number: [null] or [NaN]. *)
Lemma parse_no_digit (s : string) :
  has_digit s = false ->
  option_map parseFloat (regex_match s) = None
  \/ option_map parseFloat (regex_match s) = Some NaN.
Proof.
  induction s as [|c s IH]; intros H; [left; reflexivity|].
  cbn [has_digit] in H. apply orb_false_iff in H. destruct H as [Hd Hs].
  destruct (is_dot c) eqn:Hdot.
  - apply is_dot_eq in Hdot. subst c. right. rewrite regex_match_dot.
    rewrite (take_digit_empty_no_digit _ Hs). reflexivity.
  - cbn [regex_match]. unfold in_class. rewrite Hd, Hdot. simpl orb. cbv iota. auto.
Qed.

Lemma has_digit_remove_commas (text : string) :
  has_digit (remove_commas text) = has_digit text.
Proof.
  induction text as [|c text IH]; [reflexivity|]. cbn [remove_commas has_digit].
  destruct (is_comma c) eqn:Hc.
  - apply Ascii.eqb_eq in Hc. subst c. exact IH.
  - cbn [has_digit]. rewrite IH. reflexivity.
Qed.

(** On a text without a digit [parsePrice] yields [null] or [NaN], never a
    number. *)
Lemma parsePrice_no_digit (text : string) :
  has_digit text = false ->
  parsePrice text = None \/ parsePrice text = Some NaN.
Proof.
  intros H. rewrite parsePrice_as_option_map. apply parse_no_digit.
  rewrite has_digit_remove_commas. exact H.
Qed.

Lemma take_while_all (p : ascii -> bool) (s : string) :
  forallb p (list_ascii_of_string (take_while p s)) = true.
Proof.
  induction s as [|c s IH]; [reflexivity|]. cbn [take_while].
  destruct (p c) eqn:Hp; [|reflexivity].
  cbn [list_ascii_of_string forallb]. rewrite Hp. exact IH.
Qed.

(** What reaches [parseFloat] is a run of digits and dots, and not empty. *)
Lemma regex_match_in_class (s m : string) :
  regex_match s = Some m ->
  m <> EmptyString /\ forallb in_class (list_ascii_of_string m) = true.
Proof.
  revert m. induction s as [|c s IH]; intros m; [discriminate|]. cbn [regex_match].
  destruct (in_class c) eqn:Hc; [|apply IH].
  intros H. injection H as <-. split.
  - cbn [take_while]. rewrite Hc. discriminate.
  - exact (take_while_all in_class (String c s)).
Qed.

(** The reading of the specification on the entries of its table. *)
Example spec_parsePrice_table :
  spec_parsePrice "PKR 1,299" = Some (Num 1299)
  /\ spec_parsePrice "12.50" = Some (Num (25 # 2))
  /\ spec_parsePrice "" = None
  /\ spec_parsePrice "Free" = None
  /\ spec_parsePrice "1.2.3" = Some (Num (6 # 5))
  /\ spec_parsePrice "no price" = None.
Proof. repeat split; reflexivity. Qed.

End PriceFacts.

(** C1.  On "Rs. 1,299" the first run of the class [[\d.]] is the dot of
    the abbreviation: [parsePrice] answers [NaN], where the first maximal
    run of digits with at most one decimal point is 1299. *)
Theorem parsePrice_dot_before_number :
  parsePrice "Rs. 1,299" = Some NaN
  /\ spec_parsePrice "Rs. 1,299" = Some (Num 1299).
Proof. split; reflexivity. Qed.

(** C9.  "N.A." has no digit, hence no numeric token, and [parsePrice]
    answers [NaN] instead of no value. *)
Theorem parsePrice_NaN_without_number :
  has_digit "N.A." = false
  /\ spec_parsePrice "N.A." = None
  /\ parsePrice "N.A." = Some NaN.
Proof. repeat split; reflexivity. Qed.

(* ------------------------------------------------------------------ *)
(** * Properties of [dismissPopups] *)

Section PopupFacts.

Variables (env : Env) (page : PageRef) (each : ms).

Lemma try_dismiss_cases (selector : string) (h : Log) :
  try_dismiss page each selector env h = (Ok true, h ++ hit_events page each selector)
  \/ exists m, try_dismiss page each selector env h
               = (Ok false, h ++ miss_events page each selector m).
Proof.
  unfold try_dismiss, try_catch, bind, await, ret.
  destruct (act env h _) as [e|] eqn:Hwait.
  - right. exists (NotVisible e). reflexivity.
  - destruct (act env (h ++ _) _) as [e|] eqn:Hclick.
    + right. exists (ClickFailed e). simpl. rewrite <- app_assoc. reflexivity.
    + left. unfold hit_events. rewrite <- app_assoc. reflexivity.
Qed.

Lemma dismiss_loop_scan (selectors : list string) :
  forall h, exists tr,
    dismiss_loop page each selectors env h = (Ok tt, h ++ tr)
    /\ PopupScan page each selectors tr.
Proof.
  induction selectors as [|selector rest IH]; intros h.
  - exists []. rewrite app_nil_r. split; [reflexivity | constructor].
  - cbn [dismiss_loop]. unfold bind at 1.
    destruct (try_dismiss_cases selector h) as [Hhit | [m Hmiss]].
    + rewrite Hhit. exists (hit_events page each selector).
      split; [reflexivity | constructor].
    + rewrite Hmiss.
      destruct (IH (h ++ miss_events page each selector m)) as [tr [Hrun Hscan]].
      exists (miss_events page each selector m ++ tr). rewrite Hrun, app_assoc.
      split; [reflexivity | constructor; exact Hscan].
Qed.

Lemma resolved_clicks_app (a b : Log) :
  resolved_clicks (a ++ b) = (resolved_clicks a + resolved_clicks b)%nat.
Proof. unfold resolved_clicks. rewrite filter_app, length_app. reflexivity. Qed.

Lemma scan_one_dismissal (selectors : list string) (tr : Log) :
  PopupScan page each selectors tr -> (resolved_clicks tr <= 1)%nat.
Proof.
  induction 1 as [| selector rest | selector rest m tr _ IH].
  - apply Nat.le_0_l.
  - apply Nat.le_refl.
  - rewrite resolved_clicks_app. destruct m; exact IH.
Qed.

End PopupFacts.

(** C7.  [dismissPopups] returns normally on every browser, from every log
    and with every budget: no rejection of a wait or of a click reaches the
    caller. *)
Theorem dismissPopups_never_throws (env : Env) (page : PageRef)
    (timeout : option ms) (h : Log) :
  exists h', dismissPopups page timeout env h = (Ok tt, h').
Proof.
  unfold dismissPopups.
  destruct (dismiss_loop_scan env page
              (default 4000%Q timeout
               / inject_Z (Z.of_nat (List.length closeSelectors)))%Q
              closeSelectors h) as [tr [Hrun _]].
  exists (h ++ tr). exact Hrun.
Qed.

(** C8, as the specification states it, fails: the first strategy becomes
    visible, its click rejects, and the second strategy is waited for and
    clicked. *)
Lemma dismissPopups_scans_past_visible :
  stops_at_first_visible (snd (dismissPopups MainPage None (flaky_clicks 1) [])) = false.
Proof. vm_compute. reflexivity. Qed.

(** C8, amended.  [dismissPopups] goes through its seven strategies in
    order, waiting for each a seventh of the budget; a strategy that does
    not become visible, or whose click rejects, is passed over; the first
    strategy that becomes visible and whose click resolves ends the call,
    so at most one click resolves. *)
Theorem dismissPopups_scan (env : Env) (page : PageRef) (timeout : option ms) (h : Log) :
  exists tr,
    dismissPopups page timeout env h = (Ok tt, h ++ tr)
    /\ PopupScan page (default 4000%Q timeout / 7)%Q
         closeSelectors tr
    /\ (resolved_clicks tr <= 1)%nat.
Proof.
  destruct (dismiss_loop_scan env page
              (default 4000%Q timeout / 7)%Q
              closeSelectors h) as [tr [Hrun Hscan]].
  exists tr. split; [exact Hrun|]. split; [exact Hscan|].
  eapply scan_one_dismissal; exact Hscan.
Qed.

(* ------------------------------------------------------------------ *)
(** * Properties of [safeClick] *)

Section RetryFacts.

Variables (env : Env) (h0 : Log) (locator : Locator) (errs : nat -> JsError).

Lemma clicks_app (a b : Log) : clicks (a ++ b) = (clicks a + clicks b)%nat.
Proof. unfold clicks. rewrite filter_app, length_app. reflexivity. Qed.

Lemma clicks_failed_attempts (i n : nat) (last : option JsError) :
  clicks (failed_attempts locator errs i n ++ [Ev (the_click locator) last]) = S n.
Proof.
  revert i. induction n as [|n IH]; intros i; [reflexivity|].
  cbn [failed_attempts app]. unfold clicks in *. cbn [filter is_click call the_click].
  cbn [List.length]. f_equal. apply IH.
Qed.

Lemma attempts_unfold (r i : nat) :
  (i < r)%nat ->
  map Z.of_nat (seq (S i) (r - i))
  = Z.of_nat (S i) :: map Z.of_nat (seq (S (S i)) (r - S i)).
Proof.
  intros Hlt. replace (r - i)%nat with (S (r - S i)) by lia. reflexivity.
Qed.

Lemma safeClick_loop_succeeds (k r : nat) :
  fails_then_succeeds env h0 locator k errs -> (k < r)%nat ->
  forall d i h, k = (i + d)%nat -> clicks h = i ->
    safeClick_loop locator (Z.of_nat r) (map Z.of_nat (seq (S i) (r - i))) env (h0 ++ h)
    = (Ok tt, h0 ++ h ++ failed_attempts locator errs i d ++ [Ev (the_click locator) None]).
Proof.
  intros Henv Hkr. induction d as [|d IH]; intros i h Hk Hi.
  - rewrite attempts_unfold by lia. cbn [safeClick_loop]. unfold try_catch, await.
    fold (the_click locator). rewrite Henv, Hi.
    replace (i <? k)%nat with false by (symmetry; apply Nat.ltb_ge; lia).
    simpl. rewrite app_assoc. reflexivity.
  - rewrite attempts_unfold by lia. cbn [safeClick_loop]. unfold try_catch, await.
    fold (the_click locator). rewrite Henv, Hi.
    replace (i <? k)%nat with true by (symmetry; apply Nat.ltb_lt; lia).
    replace (Z.of_nat (S i) =? Z.of_nat r) with false by (symmetry; apply Z.eqb_neq; lia).
    unfold bind, sleep.
    replace (((h0 ++ h) ++ [Ev (the_click locator) (Some (errs i))])
               ++ [Ev (SetTimeout 1000%Q) None])
      with (h0 ++ (h ++ [Ev (the_click locator) (Some (errs i));
                         Ev (SetTimeout 1000%Q) None]))
      by (rewrite <- !app_assoc; reflexivity).
    rewrite (IH (S i)); [| lia | rewrite clicks_app, Hi; unfold clicks, the_click; simpl; lia].
    rewrite <- !app_assoc. reflexivity.
Qed.

Lemma safeClick_loop_gives_up (r : nat) :
  always_fails env h0 locator errs ->
  forall d i h, r = S (i + d) -> clicks h = i ->
    safeClick_loop locator (Z.of_nat r) (map Z.of_nat (seq (S i) (r - i))) env (h0 ++ h)
    = (Thrown (errs (r - 1)%nat),
       h0 ++ h ++ failed_attempts locator errs i d
          ++ [Ev (the_click locator) (Some (errs (r - 1)%nat))]).
Proof.
  intros Henv. induction d as [|d IH]; intros i h Hr Hi.
  - rewrite attempts_unfold by lia. cbn [safeClick_loop]. unfold try_catch, await.
    fold (the_click locator). rewrite Henv, Hi.
    replace (Z.of_nat (S i) =? Z.of_nat r) with true by (symmetry; apply Z.eqb_eq; lia).
    replace (r - 1)%nat with i by lia.
    unfold throw. simpl. rewrite app_assoc. reflexivity.
  - rewrite attempts_unfold by lia. cbn [safeClick_loop]. unfold try_catch, await.
    fold (the_click locator). rewrite Henv, Hi.
    replace (Z.of_nat (S i) =? Z.of_nat r) with false by (symmetry; apply Z.eqb_neq; lia).
    unfold bind, sleep.
    replace (((h0 ++ h) ++ [Ev (the_click locator) (Some (errs i))])
               ++ [Ev (SetTimeout 1000%Q) None])
      with (h0 ++ (h ++ [Ev (the_click locator) (Some (errs i));
                         Ev (SetTimeout 1000%Q) None]))
      by (rewrite <- !app_assoc; reflexivity).
    rewrite (IH (S i)); [| lia | rewrite clicks_app, Hi; unfold clicks, the_click; simpl; lia].
    rewrite <- !app_assoc. reflexivity.
Qed.

End RetryFacts.

(** C2.  With the default ceiling of three attempts: an action that rejects
    its first [k < 3] invocations and then resolves makes [safeClick]
    return after [k] failed attempts, each followed by a delay of 1000 ms,
    and one successful attempt, [k + 1] clicks in all; an action that
    always rejects makes [safeClick] throw the error of the third attempt
    after exactly three clicks with a delay of 1000 ms between them. *)
Theorem safeClick_retries (env : Env) (h0 : Log) (locator : Locator)
    (errs : nat -> JsError) :
  (forall k : nat, (k < 3)%nat ->
     fails_then_succeeds env h0 locator k errs ->
     exists tr,
       safeClick locator None env h0 = (Ok tt, h0 ++ tr)
       /\ tr = failed_attempts locator errs 0 k ++ [Ev (the_click locator) None]
       /\ clicks tr = S k)
  /\ (always_fails env h0 locator errs ->
      exists tr,
        safeClick locator None env h0 = (Thrown (errs 2%nat), h0 ++ tr)
        /\ tr = failed_attempts locator errs 0 2
                  ++ [Ev (the_click locator) (Some (errs 2%nat))]
        /\ clicks tr = 3%nat).
Proof.
  split.
  - intros k Hk Henv.
    pose proof (safeClick_loop_succeeds env h0 locator errs k 3 Henv Hk
                  k 0%nat [] eq_refl eq_refl) as Hrun.
    rewrite app_nil_r in Hrun. eexists. split; [exact Hrun|].
    split; [reflexivity | apply clicks_failed_attempts].
  - intros Henv.
    pose proof (safeClick_loop_gives_up env h0 locator errs 3 Henv
                  2%nat 0%nat [] eq_refl eq_refl) as Hrun.
    rewrite app_nil_r in Hrun. eexists. split; [exact Hrun|].
    split; [reflexivity | apply clicks_failed_attempts].
Qed.

Lemma safeClick_retries_witness :
  let button := Loc MainPage "#buy" in
  fails_then_succeeds (flaky_clicks 2) [] button 2 detached_error
  /\ always_fails dead_clicks [] button detached_error
  /\ (exists tr,
        safeClick button None (flaky_clicks 2) [] = (Ok tt, [] ++ tr)
        /\ tr = failed_attempts button detached_error 0 2 ++ [Ev (the_click button) None]
        /\ clicks tr = 3%nat)
  /\ (exists tr,
        safeClick button None dead_clicks [] = (Thrown (detached_error 2), [] ++ tr)
        /\ tr = failed_attempts button detached_error 0 2
                  ++ [Ev (the_click button) (Some (detached_error 2))]
        /\ clicks tr = 3%nat).
Proof.
  intros button.
  assert (Hflaky : fails_then_succeeds (flaky_clicks 2) [] button 2 detached_error)
    by (intros h; reflexivity).
  assert (Hdead : always_fails dead_clicks [] button detached_error)
    by (intros h; reflexivity).
  split; [exact Hflaky|]. split; [exact Hdead|]. split.
  - apply (proj1 (safeClick_retries (flaky_clicks 2) [] button detached_error) 2%nat);
      [lia | exact Hflaky].
  - apply (proj2 (safeClick_retries dead_clicks [] button detached_error)). exact Hdead.
Defined.

(** C10.  With a ceiling of zero or less the loop body never runs:
    [safeClick] returns normally and the log is left as it was, so no
    click was attempted. *)
Theorem safeClick_no_attempts (env : Env) (h : Log) (locator : Locator) (retries : Z) :
  retries <= 0 ->
  safeClick locator (Some retries) env h = (Ok tt, h).
Proof.
  intros Hle. unfold safeClick, attempts, default.
  replace (Z.to_nat retries) with 0%nat by lia. reflexivity.
Qed.

Lemma safeClick_no_attempts_witness :
  (-2 <= 0)
  /\ safeClick (Loc MainPage "#buy") (Some (-2)) dead_clicks [] = (Ok tt, []).
Proof.
  split; [lia|]. apply (safeClick_no_attempts dead_clicks [] (Loc MainPage "#buy") (-2)). lia.
Defined.

(* ------------------------------------------------------------------ *)
(** * Properties of [URLSearchParams.set] *)

Section ParamFacts.

Import URLSearchParams.

Variables (name value : string).

Lemma has_name_self : has_name name (name, value) = true.
Proof. unfold has_name. apply String.eqb_refl. Qed.

Lemma get_set (params : list (string * string)) :
  get (set params name value) name = Some value.
Proof.
  induction params as [|p rest IH]; cbn [set get].
  - rewrite has_name_self. reflexivity.
  - destruct (has_name name p) eqn:Hp; cbn [get].
    + rewrite has_name_self. reflexivity.
    + rewrite Hp. exact IH.
Qed.

Lemma others_has_none (params : list (string * string)) :
  filter (has_name name) (others name params) = [].
Proof.
  unfold others. induction params as [|p rest IH]; [reflexivity|].
  cbn [filter]. destruct (has_name name p) eqn:Hp; cbn [negb filter]; [exact IH|].
  rewrite Hp. exact IH.
Qed.

Lemma others_idem (params : list (string * string)) :
  others name (others name params) = others name params.
Proof.
  unfold others. induction params as [|p rest IH]; [reflexivity|].
  cbn [filter]. destruct (has_name name p) eqn:Hp; cbn [negb filter]; [exact IH|].
  rewrite Hp. cbn [negb]. f_equal. exact IH.
Qed.

Lemma occurrences_set (params : list (string * string)) :
  occurrences name (set params name value) = 1%nat.
Proof.
  unfold occurrences. induction params as [|p rest IH]; cbn [set filter].
  - rewrite has_name_self. reflexivity.
  - destruct (has_name name p) eqn:Hp; cbn [filter].
    + rewrite has_name_self, others_has_none. reflexivity.
    + rewrite Hp. exact IH.
Qed.

Lemma others_set (params : list (string * string)) :
  others name (set params name value) = others name params.
Proof.
  induction params as [|p rest IH]; cbn [set].
  - unfold others. cbn [filter]. rewrite has_name_self. reflexivity.
  - destruct (has_name name p) eqn:Hp.
    + unfold others at 1 3. cbn [filter]. rewrite has_name_self, Hp. cbn [negb].
      apply others_idem.
    + unfold others at 1 2. cbn [filter]. rewrite Hp. cbn [negb].
      f_equal. exact IH.
Qed.

End ParamFacts.

(* ------------------------------------------------------------------ *)
(** * Properties of [applyPriceFilter] *)

Section FilterFacts.

Variables (env : Env) (this : SearchResultsPage.t).

Lemma gotos_app (a b : Log) : gotos (a ++ b) = (gotos a + gotos b)%nat.
Proof. unfold gotos. rewrite filter_app, length_app. reflexivity. Qed.

Lemma scan_no_goto (page : PageRef) (each : ms) (selectors : list string) (tr : Log) :
  PopupScan page each selectors tr -> gotos tr = 0%nat.
Proof.
  induction 1 as [| selector rest | selector rest m tr _ IH]; try reflexivity.
  rewrite gotos_app, IH. destruct m; reflexivity.
Qed.

(** The popup dismisser, as [applyPriceFilter] calls it. *)
Lemma dismissPopups_run (page : PageRef) (h : Log) :
  exists tr,
    dismissPopups page None env h = (Ok tt, h ++ tr)
    /\ PopupScan page (4000 / 7)%Q closeSelectors tr.
Proof. exact (dismiss_loop_scan env page (4000 / 7)%Q closeSelectors h). Qed.

(** The sidebar path touches the sidebar only: it never navigates. *)
Lemma sidebar_path_log (min max : Z) (h : Log) :
  exists tr, snd (sidebar_path this min max env h) = h ++ tr /\ gotos tr = 0%nat.
Proof.
  unfold sidebar_path, bind, try_catch, await.
  destruct (act env h _); [eexists; split; [reflexivity|reflexivity]|].
  destruct (act env (h ++ _) _);
    [eexists; split; [cbn [snd]; rewrite <- app_assoc; reflexivity | reflexivity]|].
  destruct (act env ((h ++ _) ++ _) _);
    [eexists; split; [cbn [snd]; rewrite <- !app_assoc; reflexivity | reflexivity]|].
  destruct (act env (((h ++ _) ++ _) ++ _) (Click _ _)).
  - destruct (act env ((((h ++ _) ++ _) ++ _) ++ _) _);
      eexists; (split; [cbn [snd]; rewrite <- !app_assoc; reflexivity | reflexivity]).
  - eexists; split; [cbn [snd]; rewrite <- !app_assoc; reflexivity | reflexivity].
Qed.

(** The address path: one navigation, to the current address with its
    [price] parameter set. *)
Lemma url_path_run (min max : Z) (h : Log) :
  let target := Goto (price_url (url_of env h) min max) "domcontentloaded" 30000%Q in
  url_path min max env h
  = (match act env h target with None => Ok tt | Some e => Thrown e end,
     h ++ [Ev target (act env h target)]).
Proof.
  cbv zeta. unfold url_path, bind, current_url, await.
  destruct (act env h _); reflexivity.
Qed.

(** After either path: the settle delay, then the popup dismisser. *)
Lemma settle_run (h : Log) :
  exists tr,
    (sleep RESULTS_WAIT ;; dismissPopups (page this) None) env h
    = (Ok tt, h ++ Ev (SetTimeout 4000%Q) None :: tr)
    /\ PopupScan (page this) (4000 / 7)%Q closeSelectors tr.
Proof.
  unfold bind, sleep.
  destruct (dismissPopups_run (page this) (h ++ [Ev (SetTimeout RESULTS_WAIT) None]))
    as [tr [Hrun Hscan]].
  exists tr. rewrite Hrun, <- app_assoc. split; [reflexivity | exact Hscan].
Qed.

Lemma applyPriceFilter_unfold (min max : option Z) (h : Log) :
  applyPriceFilter this min max env h
  = match sidebar_path this (default PRICE_MIN min) (default PRICE_MAX max) env h with
    | (Ok _, h1) => (sleep RESULTS_WAIT ;; dismissPopups (page this) None) env h1
    | (Thrown _, h1) =>
        (url_path (default PRICE_MIN min) (default PRICE_MAX max) ;;
         sleep RESULTS_WAIT ;; dismissPopups (page this) None) env h1
    end.
Proof.
  unfold applyPriceFilter, bind, try_catch.
  destruct (sidebar_path _ _ _ env h) as [[[]|e] h1]; [reflexivity|].
  destruct (url_path _ _ env h1) as [[[]|e'] h2]; reflexivity.
Qed.

End FilterFacts.

(** A fill that rejects makes the sidebar path throw. *)
Lemma sidebar_path_fill_rejects (env : Env) (this : SearchResultsPage.t)
    (min max : Z) (h : Log) (e : JsError) :
  let wait := WaitFor (priceMinInput this) "visible" 8000%Q in
  let fill := Fill (priceMinInput this) (String_of min) in
  act env h wait = None ->
  act env (h ++ [Ev wait None]) fill = Some e ->
  sidebar_path this min max env h = (Thrown e, h ++ [Ev wait None; Ev fill (Some e)]).
Proof.
  cbv zeta. intros Hwait Hfill. unfold sidebar_path, bind, await.
  rewrite Hwait, Hfill, <- app_assoc. reflexivity.
Qed.

(** C4.  For safe integers [min <= max]: when the sidebar path has failed,
    [applyPriceFilter] navigates to the current address with its [price]
    parameter set: there the parameter reads [min-max], it occurs once, and
    the other parameters, the base and the fragment are those of the
    current address. *)
Theorem applyPriceFilter_url_param (env : Env) (this : SearchResultsPage.t)
    (min max : Z) (h h1 : Log) (e : JsError) :
  safe_integer min -> safe_integer max ->
  min <= max ->
  sidebar_path this min max env h = (Thrown e, h1) ->
  let url := price_url (url_of env h1) min max in
  (exists r o rest,
     applyPriceFilter this (Some min) (Some max) env h
     = (r, h1 ++ Ev (Goto url "domcontentloaded" 30000%Q) o :: rest))
  /\ URLSearchParams.get (searchParams url) "price"
     = Some (String_of min ++ "-" ++ String_of max)%string
  /\ URLSearchParams.occurrences "price" (searchParams url) = 1%nat
  /\ URLSearchParams.others "price" (searchParams url)
     = URLSearchParams.others "price" (searchParams (url_of env h1))
  /\ base url = base (url_of env h1)
  /\ hash url = hash (url_of env h1).
Proof.
  intros _ _ _ Hside url. split.
  - rewrite applyPriceFilter_unfold. cbn [default]. rewrite Hside.
    unfold bind at 1. rewrite url_path_run. fold url.
    destruct (act env h1 _) as [e'|].
    + exists (Thrown e'), (Some e'), []. reflexivity.
    + destruct (settle_run env this (h1 ++ [Ev (Goto url "domcontentloaded" 30000%Q) None]))
        as [tr [Hrun _]].
      rewrite Hrun, <- app_assoc. eexists _, _, _. reflexivity.
  - subst url. cbn [price_url searchParams base hash].
    split; [apply get_set|]. split; [apply occurrences_set|].
    split; [apply others_set|]. split; reflexivity.
Qed.

Lemma applyPriceFilter_url_param_witness :
  let this := constructor MainPage in
  let wait := Ev (WaitFor (priceMinInput this) "visible" 8000%Q) (Some timeout_error) in
  let url := price_url results_url 500 5000 in
  safe_integer 500 /\ safe_integer 5000
  /\ 500 <= 5000
  /\ sidebar_path this 500 5000 all_time_out [] = (Thrown timeout_error, [wait])
  /\ (exists r o rest,
        applyPriceFilter this (Some 500) (Some 5000) all_time_out []
        = (r, [wait] ++ Ev (Goto url "domcontentloaded" 30000%Q) o :: rest))
  /\ URLSearchParams.get (searchParams url) "price" = Some "500-5000"
  /\ URLSearchParams.occurrences "price" (searchParams url) = 1%nat
  /\ URLSearchParams.others "price" (searchParams url)
     = [("q", "electronics"); ("page", "2")].
Proof.
  intros this wait url.
  assert (Hmin : safe_integer 500) by (unfold safe_integer; lia).
  assert (Hmax : safe_integer 5000) by (unfold safe_integer; lia).
  assert (Hle : 500 <= 5000) by lia.
  assert (Hside : sidebar_path this 500 5000 all_time_out [] = (Thrown timeout_error, [wait]))
    by reflexivity.
  destruct (applyPriceFilter_url_param all_time_out this 500 5000 [] [wait]
              timeout_error Hmin Hmax Hle Hside) as [Hgo [Hget [Hocc [Hoth _]]]].
  split; [exact Hmin|]. split; [exact Hmax|]. split; [exact Hle|]. split; [exact Hside|]. split; [exact Hgo|].
  split; [exact Hget|]. split; [exact Hocc | exact Hoth].
Defined.

(** C5, as the specification states it, fails: the min input is found,
    filling it rejects, and [applyPriceFilter] returns normally after
    navigating to the fallback address. *)
Lemma applyPriceFilter_swallows_fill_error :
  let this := constructor MainPage in
  let wait := WaitFor (priceMinInput this) "visible" 8000%Q in
  act fill_rejects [] wait = None
  /\ act fill_rejects [Ev wait None] (Fill (priceMinInput this) "500") = Some timeout_error
  /\ fst (applyPriceFilter this None None fill_rejects []) = Ok tt
  /\ gotos (snd (applyPriceFilter this None None fill_rejects [])) = 1%nat.
Proof. vm_compute. repeat split; reflexivity. Qed.

(** C5, amended.  Whatever makes the sidebar path throw (the min input not
    becoming visible, a fill rejecting, the key press rejecting after the
    click on the apply button did), the error is caught: the call goes on
    with the address path, the settle delay and the popup dismisser, and
    the only error it can throw is the rejection of that navigation. *)
Theorem applyPriceFilter_falls_back (env : Env) (this : SearchResultsPage.t)
    (min max : Z) (h h1 : Log) (e : JsError) :
  sidebar_path this min max env h = (Thrown e, h1) ->
  applyPriceFilter this (Some min) (Some max) env h
  = (url_path min max ;; sleep RESULTS_WAIT ;; dismissPopups (page this) None) env h1
  /\ (forall e' hf,
        applyPriceFilter this (Some min) (Some max) env h = (Thrown e', hf) ->
        act env h1 (Goto (price_url (url_of env h1) min max) "domcontentloaded" 30000%Q)
        = Some e').
Proof.
  intros Hside.
  assert (Hrun : applyPriceFilter this (Some min) (Some max) env h
                 = (url_path min max ;; sleep RESULTS_WAIT ;;
                    dismissPopups (page this) None) env h1)
    by (rewrite applyPriceFilter_unfold; cbn [default]; rewrite Hside; reflexivity).
  split; [exact Hrun|]. intros e' hf. rewrite Hrun. unfold bind at 1.
  rewrite url_path_run. destruct (act env h1 _) as [e''|].
  - intros H. inversion H. reflexivity.
  - destruct (settle_run env this
                (h1 ++ [Ev (Goto (price_url (url_of env h1) min max)
                              "domcontentloaded" 30000%Q) None])) as [tr [Hs _]].
    rewrite Hs. discriminate.
Qed.

Lemma applyPriceFilter_falls_back_witness :
  let this := constructor MainPage in
  let wait := WaitFor (priceMinInput this) "visible" 8000%Q in
  let fill := Fill (priceMinInput this) "500" in
  let h1 := [Ev wait None; Ev fill (Some timeout_error)] in
  sidebar_path this 500 5000 fill_rejects [] = (Thrown timeout_error, h1)
  /\ applyPriceFilter this (Some 500) (Some 5000) fill_rejects []
     = (url_path 500 5000 ;; sleep RESULTS_WAIT ;; dismissPopups (page this) None)
         fill_rejects h1.
Proof.
  intros this wait fill h1.
  assert (Hside : sidebar_path this 500 5000 fill_rejects [] = (Thrown timeout_error, h1))
    by (apply (sidebar_path_fill_rejects fill_rejects this 500 5000 []); reflexivity).
  split; [exact Hside|].
  exact (proj1 (applyPriceFilter_falls_back fill_rejects this 500 5000 [] h1
                  timeout_error Hside)).
Defined.

(** C6, as the specification states it, fails: the min input never becomes
    visible, the fallback navigation rejects, and [applyPriceFilter] throws
    with no settle delay in its log. *)
Lemma applyPriceFilter_throws_unsettled :
  fst (applyPriceFilter (constructor MainPage) None None all_time_out [])
  = Thrown timeout_error
  /\ existsb is_settle (snd (applyPriceFilter (constructor MainPage) None None
                               all_time_out [])) = false.
Proof. vm_compute. split; reflexivity. Qed.

(** C6, amended.  A call that returns has run exactly one of the two paths
    to its end (the sidebar path without any navigation, or, after the
    sidebar path threw, the one navigation of the address path) and then
    the settle delay of 4000 ms and one scan of the popup dismisser.  A
    call that throws throws the rejection of the fallback navigation, and
    its log ends there. *)
Theorem applyPriceFilter_one_path_then_settle (env : Env)
    (this : SearchResultsPage.t) (min max : option Z) (h : Log) :
  let lo := default PRICE_MIN min in
  let hi := default PRICE_MAX max in
  match applyPriceFilter this min max env h with
  | (Ok _, hf) =>
      exists path tr,
        hf = h ++ path ++ Ev (SetTimeout 4000%Q) None :: tr
        /\ PopupScan (page this) (4000 / 7)%Q closeSelectors tr
        /\ ((sidebar_path this lo hi env h = (Ok tt, h ++ path)
             /\ gotos (path ++ Ev (SetTimeout 4000%Q) None :: tr) = 0%nat)
            \/ (exists e mid,
                  sidebar_path this lo hi env h = (Thrown e, mid)
                  /\ url_path lo hi env mid = (Ok tt, h ++ path)
                  /\ gotos (path ++ Ev (SetTimeout 4000%Q) None :: tr) = 1%nat))
  | (Thrown e, hf) =>
      exists e0 mid,
        sidebar_path this lo hi env h = (Thrown e0, mid)
        /\ url_path lo hi env mid = (Thrown e, hf)
  end.
Proof.
  cbv zeta. rewrite applyPriceFilter_unfold.
  destruct (sidebar_path_log env this (default PRICE_MIN min) (default PRICE_MAX max) h)
    as [side [Hlog Hnav]].
  destruct (sidebar_path this _ _ env h) as [[[]|e] h1] eqn:Hside; cbn [snd] in Hlog; subst h1.
  - destruct (settle_run env this (h ++ side)) as [tr [Hrun Hscan]]. rewrite Hrun.
    exists side, tr. rewrite <- app_assoc. split; [reflexivity|]. split; [exact Hscan|].
    left. split; [reflexivity|].
    rewrite gotos_app, Hnav. change (Ev (SetTimeout 4000%Q) None :: tr)
      with ([Ev (SetTimeout 4000%Q) None] ++ tr).
    rewrite gotos_app, (scan_no_goto _ _ _ _ Hscan). reflexivity.
  - unfold bind at 1. rewrite url_path_run.
    set (target := Goto _ _ _).
    destruct (act env (h ++ side) target) as [e'|] eqn:Hgo.
    + exists e, (h ++ side). split; [reflexivity|].
      rewrite url_path_run. fold target. rewrite Hgo. reflexivity.
    + destruct (settle_run env this ((h ++ side) ++ [Ev target None])) as [tr [Hrun Hscan]].
      rewrite Hrun. exists (side ++ [Ev target None]), tr.
      split; [rewrite <- !app_assoc; reflexivity|]. split; [exact Hscan|].
      right. exists e, (h ++ side). split; [reflexivity|].
      split; [rewrite url_path_run; fold target; rewrite Hgo, <- app_assoc; reflexivity|].
      change (Ev (SetTimeout 4000%Q) None :: tr) with ([Ev (SetTimeout 4000%Q) None] ++ tr).
      rewrite !gotos_app, Hnav, (scan_no_goto _ _ _ _ Hscan). reflexivity.
Qed.

(* ------------------------------------------------------------------ *)
(** * Properties of [openProduct] *)

Section OpenFacts.

Variables (env : Env) (this : SearchResultsPage.t).

(** When the wait for the first card rejects, that rejection is what
    [openProduct] throws; the products are not counted. *)
Lemma openProduct_wait_rejects (index : option Z) (h : Log) (e : JsError) :
  act env h (first_card_wait this) = Some e ->
  openProduct this index env h = (Thrown e, h ++ [Ev (first_card_wait this) (Some e)]).
Proof.
  intros Hwait. unfold openProduct, bind, await. cbv zeta.
  fold (first_card_wait this). rewrite Hwait. reflexivity.
Qed.

(** The check on the count: reached once a first card was seen, it throws
    the error for a results page without products. *)
Lemma openProduct_count_zero (index : option Z) (h : Log) :
  let h1 := h ++ [Ev (first_card_wait this) None] in
  act env h (first_card_wait this) = None ->
  act env h1 (Count (productCards this)) = None ->
  count_of env h1 (productCards this) = 0 ->
  openProduct this index env h
  = (Thrown no_products_error, h1 ++ [Ev (Count (productCards this)) None]).
Proof.
  cbv zeta. intros Hwait Hcount Hzero. unfold openProduct, bind, await, await_count.
  cbv zeta. fold (first_card_wait this). rewrite Hwait, Hcount, Hzero. reflexivity.
Qed.

(** With at least one product and an index at or past the count, the card
    that is clicked is the last one. *)
Lemma openProduct_clamps (index : Z) (h : Log) :
  let h1 := h ++ [Ev (first_card_wait this) None] in
  let count := count_of env h1 (productCards this) in
  act env h (first_card_wait this) = None ->
  act env h1 (Count (productCards this)) = None ->
  1 <= count -> count <= index ->
  exists r o rest,
    openProduct this (Some index) env h
    = (r, h1 ++ Ev (Count (productCards this)) None
             :: Ev (Click (Nth (productCards this) (count - 1)) (Some 10000%Q)) o
             :: rest).
Proof.
  cbv zeta. intros Hwait Hcount Hone Hidx.
  unfold openProduct, bind, await, await_count, await_new_page, ret, throw.
  cbv zeta. cbn [default]. fold (first_card_wait this). rewrite Hwait, Hcount.
  set (h1 := h ++ [Ev (first_card_wait this) None]) in *.
  set (count := count_of env h1 (productCards this)) in *.
  replace (count =? 0) with false by (symmetry; apply Z.eqb_neq; lia).
  replace (Z.min index (count - 1)) with (count - 1) by lia.
  set (h2 := h1 ++ [Ev (Count (productCards this)) None]).
  set (click := Click _ _).
  assert (Hshape : forall tail, (h2 ++ [Ev click (act env h2 click)]) ++ tail
            = h1 ++ Ev (Count (productCards this)) None
                 :: Ev click (act env h2 click) :: tail)
    by (intros tail; unfold h2; rewrite <- !app_assoc; reflexivity).
  destruct (act env h2 click) as [e|] eqn:Hclick.
  - eexists _, _, []. rewrite <- (Hshape []), app_nil_r. reflexivity.
  - set (h3 := h2 ++ [Ev click None]) in *.
    destruct (act env h3 (WaitForEvent "page")) as [e|];
      [|destruct (new_page env h3) as [tab|]];
      match goal with
      | |- context [act env ?hh (WaitForLoadState ?p ?s ?t)] =>
          destruct (act env hh (WaitForLoadState p s t))
      end;
      eexists _, _, _; rewrite <- !app_assoc, Hshape; reflexivity.
Qed.

End OpenFacts.

(** On a page that keeps its [n >= 1] products, an index at or past the
    count opens the last product and nothing is thrown. *)
Lemma openProduct_static_clamps (page : PageRef) (n index : Z) (h : Log) :
  1 <= n -> n <= index ->
  let this := constructor page in
  openProduct this (Some index) (static_results n) h
  = (Ok page,
     h ++ [Ev (WaitFor (First (productCards this)) "visible" 15000%Q) None;
           Ev (Count (productCards this)) None;
           Ev (Click (Nth (productCards this) (n - 1)) (Some 10000%Q)) None;
           Ev (WaitForEvent "page") None;
           Ev (WaitForLoadState page "domcontentloaded" 30000%Q) None]).
Proof.
  intros Hone Hidx this.
  unfold openProduct, bind, await, await_count, await_new_page, ret.
  assert (H1 : (0 <? n) = true) by (apply Z.ltb_lt; lia).
  assert (H2 : (n =? 0) = false) by (apply Z.eqb_neq; lia).
  assert (H3 : Z.min index (n - 1) = n - 1) by lia.
  assert (H4 : (0 <=? n - 1) && (n - 1 <? n) = true)
    by (apply andb_true_iff; split; [apply Z.leb_le | apply Z.ltb_lt]; lia).
  subst this. cbv zeta. unfold static_results.
  cbn [productCards constructor SearchResultsPage.page default].
  repeat (cbn [act count_of new_page]; rewrite ?H1, ?H2, ?H3, ?H4).
  rewrite <- !app_assoc. reflexivity.
Qed.

(** C3.  On a results page without any product, [openProduct] throws the
    timeout of its wait for the first card, whatever the index: the check
    on the count, and its error for the page without products, are never
    reached. *)
Theorem openProduct_empty_page_times_out (page : PageRef) (index : option Z) (h : Log) :
  let this := constructor page in
  let wait := WaitFor (First (productCards this)) "visible" 15000%Q in
  count_of (static_results 0) h (productCards this) = 0
  /\ openProduct this index (static_results 0) h
     = (Thrown timeout_error, h ++ [Ev wait (Some timeout_error)])
  /\ timeout_error <> no_products_error.
Proof.
  cbv zeta. split; [reflexivity|]. split.
  - apply openProduct_wait_rejects. reflexivity.
  - discriminate.
Qed.

(** The values of [attempt] for which the loop of [safeClick] runs. *)
Lemma attempts_range (retries a : Z) : In a (attempts retries) <-> 1 <= a <= retries.
Proof.
  unfold attempts. rewrite in_map_iff. split.
  - intros [n [Hn Hin]]. apply in_seq in Hin. lia.
  - intros Ha. exists (Z.to_nat a). split; [lia|]. apply in_seq. lia.
Qed.

(* ------------------------------------------------------------------ *)
(** * Further properties of [parsePrice] *)

Import Reads Config PriceChecks ResultsPage Notions.

Section MorePriceFacts.

Lemma remove_commas_app (a b : string) :
  remove_commas (a ++ b) = (remove_commas a ++ remove_commas b)%string.
Proof.
  induction a as [|c a IH]; [reflexivity|]. cbn [String.append remove_commas].
  destruct (is_comma c); cbn [String.append]; rewrite IH; reflexivity.
Qed.

Lemma regex_match_none_iff (s : string) :
  regex_match s = None <-> has_class_char s = false.
Proof.
  induction s as [|c s IH]; [split; reflexivity|]. cbn [regex_match has_class_char].
  destruct (in_class c); [split; discriminate | exact IH].
Qed.

Lemma has_class_char_remove_commas (text : string) :
  has_class_char (remove_commas text) = has_class_char text.
Proof.
  induction text as [|c text IH]; [reflexivity|]. cbn [remove_commas has_class_char].
  destruct (is_comma c) eqn:Hc.
  - apply Ascii.eqb_eq in Hc. subst c. exact IH.
  - cbn [has_class_char]. rewrite IH. reflexivity.
Qed.

Lemma bare_dot_is_NaN (s : string) :
  option_map parseFloat (regex_match s) = Some NaN <-> starts_with_bare_dot s = true.
Proof.
  induction s as [|c s IH]; [split; discriminate|].
  destruct (is_digit c) eqn:Hd.
  - rewrite (regex_match_digit c s Hd). cbn [starts_with_bare_dot]. rewrite Hd.
    split; [|discriminate]. intros H. inversion H.
  - destruct (is_dot c) eqn:Hdot.
    + apply is_dot_eq in Hdot. subst c. rewrite regex_match_dot.
      cbn [starts_with_bare_dot]. change (is_digit ".") with false.
      change (is_dot ".") with true. cbv iota.
      destruct (is_empty (take_while is_digit s)); split; try reflexivity; discriminate.
    + cbn [starts_with_bare_dot regex_match]. unfold in_class.
      rewrite Hd, Hdot. simpl orb. cbv iota. exact IH.
Qed.

(** The dot of "Rs." is the first match of the class. *)
Lemma Rs_label_is_NaN (rest : string) : parsePrice ("Rs. " ++ rest) = Some NaN.
Proof. reflexivity. Qed.

End MorePriceFacts.

(** X1.  [parsePrice] does not see commas: a text with a comma put in
    anywhere parses as the text without it. *)
Theorem parsePrice_ignores_commas (a b : string) :
  parsePrice (a ++ "," ++ b) = parsePrice (a ++ b).
Proof.
  unfold parsePrice. rewrite !remove_commas_app. reflexivity.
Qed.

(** X2.  [parsePrice] answers [null] exactly on the texts that have
    neither a digit nor a dot. *)
Theorem parsePrice_null_iff (text : string) :
  parsePrice text = None <-> has_class_char text = false.
Proof.
  rewrite <- has_class_char_remove_commas, <- regex_match_none_iff.
  unfold parsePrice. destruct (regex_match _); split; congruence.
Qed.

(** X3.  What [parsePrice] answers on every text: [NaN] when, commas
    apart, the first digit-or-dot of the text is a dot with no digit right
    after it, and otherwise the number written by the first run of digits
    with at most one dot in it ([null] when the text has no digit). *)
Theorem parsePrice_characterised (text : string) :
  parsePrice text
  = if starts_with_bare_dot (remove_commas text) then Some NaN
    else spec_parsePrice text.
Proof.
  destruct (starts_with_bare_dot (remove_commas text)) eqn:Hdot.
  - rewrite parsePrice_as_option_map. apply bare_dot_is_NaN. exact Hdot.
  - apply parsePrice_agrees_unless_NaN. rewrite parsePrice_as_option_map.
    intros H. apply bare_dot_is_NaN in H. congruence.
Qed.

(** X4.  A label that begins with the currency mark "Rs. " parses to
    [NaN], whatever follows. *)
Theorem parsePrice_Rs_prefix (rest : string) :
  parsePrice ("Rs. " ++ rest) = Some NaN.
Proof. apply Rs_label_is_NaN. Qed.

(* ------------------------------------------------------------------ *)
(** * Printing an integer and parsing it back *)

Section PrintParse.

Lemma digits_only (d : Decimal.uint) :
  let s := NilEmpty.string_of_uint d in
  take_while is_digit s = s
  /\ drop_while is_digit s = EmptyString
  /\ take_while in_class s = s
  /\ remove_commas s = s.
Proof.
  cbv zeta.
  induction d as [|d IH|d IH|d IH|d IH|d IH|d IH|d IH|d IH|d IH|d IH];
    [repeat split | ..];
    destruct IH as [IH1 [IH2 [IH3 IH4]]];
    cbn [NilEmpty.string_of_uint take_while drop_while remove_commas];
    repeat match goal with
      | |- context [is_digit ?c] =>
          let b := eval vm_compute in (is_digit c) in change (is_digit c) with b
      | |- context [in_class ?c] =>
          let b := eval vm_compute in (in_class c) in change (in_class c) with b
      | |- context [is_comma ?c] =>
          let b := eval vm_compute in (is_comma c) in change (is_comma c) with b
      end;
    cbv iota; rewrite IH1, IH2, IH3, IH4; repeat split.
Qed.

Lemma digits_value_acc (d : Decimal.uint) (acc : positive) :
  digits_value (Z.pos acc) (NilEmpty.string_of_uint d) = Z.pos (Pos.of_uint_acc d acc).
Proof.
  revert acc. induction d; intros acc; cbn [NilEmpty.string_of_uint digits_value Pos.of_uint_acc];
    [reflexivity | ..];
    match goal with
    | |- digits_value ?z _ = Z.pos (Pos.of_uint_acc _ ?p) =>
        replace z with (Z.pos p)
          by (match goal with
              | |- context [digit_value ?c] =>
                  let v := eval vm_compute in (digit_value c) in
                  change (digit_value c) with v
              end; lia)
    end; apply IHd.
Qed.

Lemma digits_value_uint (d : Decimal.uint) :
  digits_value 0 (NilEmpty.string_of_uint d) = Z.of_N (Pos.of_uint d).
Proof.
  induction d; cbn [NilEmpty.string_of_uint digits_value Pos.of_uint];
    [reflexivity | exact IHd | ..];
    match goal with
    | |- digits_value ?z _ = Z.of_N (N.pos (Pos.of_uint_acc _ ?p)) =>
        change z with (Z.pos p)
    end; apply digits_value_acc.
Qed.

Lemma append_empty (s : string) : (s ++ "")%string = s.
Proof. induction s as [|c s IH]; [reflexivity|]. cbn. rewrite IH. reflexivity. Qed.

Lemma Qred_integer (z : Z) : Qred (z # 1) = z # 1.
Proof.
  unfold Qred.
  pose proof (Z.ggcd_gcd z 1) as Hg.
  pose proof (Z.ggcd_correct_divisors z 1) as Hd.
  destruct (Z.ggcd z 1) as [g [a b]]. cbn [fst snd] in *.
  rewrite Z.gcd_1_r in Hg. subst g. destruct Hd as [Ha Hb].
  rewrite Z.mul_1_l in Ha, Hb. subst a b. reflexivity.
Qed.

Lemma parsePrice_digits (p : positive) :
  parsePrice (NilEmpty.string_of_uint (Pos.to_uint p)) = Some (Num (Z.pos p # 1)).
Proof.
  destruct (digits_only (Pos.to_uint p)) as [H1 [H2 [H3 H4]]]. cbv zeta in *.
  pose proof (DecimalPos.Unsigned.to_uint_nonnil p) as Hnil.
  pose proof (digits_value_uint (Pos.to_uint p)) as Hval.
  rewrite DecimalPos.Unsigned.of_to in Hval. cbn [Z.of_N] in Hval.
  unfold parsePrice. rewrite H4.
  destruct (NilEmpty.string_of_uint (Pos.to_uint p)) as [|c s] eqn:Hs.
  - destruct (Pos.to_uint p); try discriminate Hs. congruence.
  - assert (Hc : in_class c = true)
      by (cbn [take_while] in H3; destruct (in_class c); [reflexivity | discriminate]).
    cbn [regex_match]. rewrite Hc, H3. f_equal.
    unfold parseFloat. rewrite H1, H2. cbn [is_empty]. unfold decimal.
    rewrite append_empty, Hval. cbn [String.length pow10]. rewrite Qred_integer. reflexivity.
Qed.

End PrintParse.

(** X5.  A safe integer printed by [String(n)] parses back to its
    magnitude: a number that is not negative parses to itself, and the
    minus sign of a negative one is dropped. *)
Theorem parsePrice_String_of (n : Z) :
  safe_integer n ->
  parsePrice (String_of n) = Some (Num (inject_Z (Z.abs n))).
Proof.
  intros _.
  unfold String_of, inject_Z. destruct n as [|p|p]; cbn [Z.to_int Z.abs].
  - reflexivity.
  - cbn [NilZero.string_of_int]. unfold NilZero.string_of_uint.
    pose proof (DecimalPos.Unsigned.to_uint_nonnil p) as Hnil.
    destruct (Pos.to_uint p) eqn:Hp; try congruence; rewrite <- Hp; apply parsePrice_digits.
  - cbn [NilZero.string_of_int]. unfold NilZero.string_of_uint.
    pose proof (DecimalPos.Unsigned.to_uint_nonnil p) as Hnil.
    pose proof (parsePrice_digits p) as Hparse.
    destruct (Pos.to_uint p) eqn:Hp; try congruence; exact Hparse.
Qed.

Lemma parsePrice_String_of_witness :
  safe_integer (-1299)
  /\ String_of (-1299) = "-1299"
  /\ parsePrice (String_of (-1299)) = Some (Num (inject_Z (Z.abs (-1299)))).
Proof.
  assert (Hsafe : safe_integer (-1299)) by (unfold safe_integer; lia).
  split; [exact Hsafe|]. split; [reflexivity|].
  exact (parsePrice_String_of (-1299) Hsafe).
Defined.

(* ------------------------------------------------------------------ *)
(** * Further properties of the fallback address *)

Section MoreParamFacts.

Import URLSearchParams.

Lemma get_others (name other : string) (params : list (string * string)) :
  other <> name -> get (others name params) other = get params other.
Proof.
  intros Hne. unfold others. induction params as [|[k v] rest IH]; [reflexivity|].
  cbn [filter]. destruct (has_name name (k, v)) eqn:Hk; cbn [negb get].
  - unfold has_name in Hk. cbn [fst] in Hk. apply String.eqb_eq in Hk. subst k.
    replace (has_name other (name, v)) with false; [exact IH|].
    symmetry. unfold has_name. cbn [fst]. apply String.eqb_neq. congruence.
  - rewrite IH. reflexivity.
Qed.

Lemma get_set_other (name value other : string) (params : list (string * string)) :
  other <> name -> get (set params name value) other = get params other.
Proof.
  intros Hne. induction params as [|[k v] rest IH]; cbn [set get].
  - replace (has_name other (name, value)) with false; [reflexivity|].
    symmetry. unfold has_name. cbn [fst]. apply String.eqb_neq. congruence.
  - destruct (has_name name (k, v)) eqn:Hk; cbn [get].
    + unfold has_name in Hk. cbn [fst] in Hk. apply String.eqb_eq in Hk. subst k.
      replace (has_name other (name, value)) with false
        by (symmetry; unfold has_name; cbn [fst]; apply String.eqb_neq; congruence).
      replace (has_name other (name, v)) with false
        by (symmetry; unfold has_name; cbn [fst]; apply String.eqb_neq; congruence).
      apply get_others. exact Hne.
    + rewrite IH. reflexivity.
Qed.

Lemma set_set (name v1 v2 : string) (params : list (string * string)) :
  set (set params name v1) name v2 = set params name v2.
Proof.
  induction params as [|p rest IH]; cbn [set].
  - rewrite has_name_self. reflexivity.
  - destruct (has_name name p) eqn:Hp; cbn [set].
    + rewrite has_name_self, others_idem. reflexivity.
    + rewrite Hp, IH. reflexivity.
Qed.

End MoreParamFacts.

(** X6.  The fallback address answers every parameter other than [price]
    as the current address does. *)
Theorem price_url_keeps_other_params (current : URL) (min max : Z) (other : string) :
  other <> "price" ->
  URLSearchParams.get (searchParams (price_url current min max)) other
  = URLSearchParams.get (searchParams current) other.
Proof. intros Hne. cbn [price_url searchParams]. apply get_set_other. exact Hne. Qed.

Lemma price_url_keeps_other_params_witness :
  "q" <> "price"
  /\ URLSearchParams.get (searchParams (price_url results_url 500 5000)) "q"
     = Some "electronics".
Proof.
  assert (Hne : "q" <> "price") by discriminate.
  split; [exact Hne|].
  exact (price_url_keeps_other_params results_url 500 5000 "q" Hne).
Defined.

(** X7.  Setting the price range of an address twice leaves the address
    the second range alone would give: the first range is replaced, not
    kept beside the second. *)
Theorem price_url_last_wins (current : URL) (a b c d : Z) :
  price_url (price_url current a b) c d = price_url current c d.
Proof.
  unfold price_url. cbn [base searchParams hash]. f_equal. apply set_set.
Qed.

(* ------------------------------------------------------------------ *)
(** * Further properties of [dismissPopups] *)

Section MorePopupFacts.

Variables (env : Env) (page : PageRef) (each : ms).

Lemma waited_app (a b : Log) : (waited (a ++ b) == waited a + waited b)%Q.
Proof.
  induction a as [|ev a IH]; cbn [app waited]; [ring|].
  destruct (call ev); rewrite ?IH; try reflexivity. ring.
Qed.

Lemma scan_waited (selectors : list string) (tr : Log) :
  PopupScan page each selectors tr ->
  exists n : nat,
    (n <= List.length selectors)%nat
    /\ List.length (filter is_wait tr) = n
    /\ (waited tr == inject_Z (Z.of_nat n) * each)%Q.
Proof.
  induction 1 as [| selector rest | selector rest m tr _ [n [Hn [Hlen Hw]]]].
  - exists 0%nat. split; [apply Nat.le_refl|]. split; [reflexivity|]. cbn. ring.
  - exists 1%nat. split; [cbn; lia|]. split; [reflexivity|]. cbn. ring.
  - exists (S n). split; [cbn; lia|]. split.
    + rewrite filter_app, length_app, Hlen. destruct m; reflexivity.
    + rewrite waited_app, Hw, Nat2Z.inj_succ. unfold Z.succ. rewrite inject_Z_plus.
      destruct m; cbn; ring.
Qed.

Lemma dismiss_loop_nothing_visible (selectors : list string) :
  (forall h selector, In selector selectors ->
     act env h (WaitFor (First (Loc page selector)) "visible" each) <> None) ->
  forall h, exists errs,
    List.length errs = List.length selectors
    /\ dismiss_loop page each selectors env h
       = (Ok tt, h ++ map (fun se => Ev (WaitFor (First (Loc page (fst se))) "visible" each)
                                        (Some (snd se)))
                         (combine selectors errs)).
Proof.
  induction selectors as [|selector rest IH]; intros Hnone h.
  - exists []. rewrite app_nil_r. split; reflexivity.
  - cbn [dismiss_loop]. unfold bind at 1. unfold try_dismiss, try_catch, bind, await, ret.
    destruct (act env h (WaitFor (First (Loc page selector)) "visible" each)) as [e|] eqn:Hw;
      [|exfalso; exact (Hnone h selector (or_introl eq_refl) Hw)].
    destruct (IH (fun h' s Hin => Hnone h' s (or_intror Hin))
                (h ++ [Ev (WaitFor (First (Loc page selector)) "visible" each) (Some e)]))
      as [errs [Hlen Hrun]].
    exists (e :: errs). split; [cbn; rewrite Hlen; reflexivity|].
    rewrite Hrun, <- app_assoc. reflexivity.
Qed.

End MorePopupFacts.

(** X8.  Whatever timeout the loop of [dismissPopups] gives each wait, one
    run over the seven controls returns normally after at most seven
    waits, and the time the waits were given adds up to the number of
    waits times that timeout. *)
Theorem dismiss_loop_waits (env : Env) (page : PageRef) (each : ms) (h : Log) :
  exists tr,
    dismiss_loop page each closeSelectors env h = (Ok tt, h ++ tr)
    /\ (List.length (filter is_wait tr) <= 7)%nat
    /\ (waited tr == inject_Z (Z.of_nat (List.length (filter is_wait tr))) * each)%Q.
Proof.
  destruct (dismiss_loop_scan env page each closeSelectors h) as [tr [Hrun Hscan]].
  exists tr. split; [exact Hrun|].
  destruct (scan_waited page _ _ _ Hscan) as [n [Hn [Hlen Hw]]].
  change (List.length closeSelectors) with 7%nat in Hn.
  rewrite Hlen. split; [exact Hn | exact Hw].
Qed.

(** X9.  On a page where none of the seven controls becomes visible,
    [dismissPopups] returns normally and its log is seven rejected waits,
    one for each control in the order of the list, each with a seventh of
    the budget: nothing is clicked. *)
Theorem dismissPopups_nothing_visible (env : Env) (page : PageRef)
    (timeout : option ms) (h : Log) :
  let each := (default 4000 timeout / 7)%Q in
  (forall h' selector, In selector closeSelectors ->
     act env h' (WaitFor (First (Loc page selector)) "visible" each) <> None) ->
  exists errs,
    List.length errs = 7%nat
    /\ dismissPopups page timeout env h
       = (Ok tt, h ++ map (fun se => Ev (WaitFor (First (Loc page (fst se))) "visible" each)
                                        (Some (snd se)))
                         (combine closeSelectors errs)).
Proof.
  intros each Hnone.
  exact (dismiss_loop_nothing_visible env page each closeSelectors Hnone h).
Qed.

Lemma dismissPopups_nothing_visible_witness :
  let each := (default 4000 None / 7)%Q in
  (forall h' selector, In selector closeSelectors ->
     act all_time_out h' (WaitFor (First (Loc MainPage selector)) "visible" each) <> None)
  /\ exists errs,
       List.length errs = 7%nat
       /\ dismissPopups MainPage None all_time_out []
          = (Ok tt, [] ++ map (fun se => Ev (WaitFor (First (Loc MainPage (fst se)))
                                              "visible" each) (Some (snd se)))
                            (combine closeSelectors errs)).
Proof.
  intros each.
  assert (Hnone : forall h' selector, In selector closeSelectors ->
             act all_time_out h' (WaitFor (First (Loc MainPage selector)) "visible" each)
             <> None)
    by (intros h' selector _; discriminate).
  split; [exact Hnone|].
  exact (dismissPopups_nothing_visible all_time_out MainPage None [] Hnone).
Defined.

(* ------------------------------------------------------------------ *)
(** * Further properties of [safeClick] *)

Section MoreRetryFacts.

Variables (env : Env) (locator : Locator).


End MoreRetryFacts.




(* ------------------------------------------------------------------ *)
(** * Further properties of [applyPriceFilter] and [openProduct] *)

(** X12.  When the sidebar inputs are filled and the click on the apply
    button rejects, Enter is pressed in the min input; if that resolves,
    the call stays on the sidebar path: it settles and returns without
    navigating. *)
Theorem applyPriceFilter_enter_fallback (env : Env) (this : SearchResultsPage.t)
    (min max : option Z) (h : Log) (e : JsError) :
  let wait := WaitFor (priceMinInput this) "visible" 8000%Q in
  let fill_min := Fill (priceMinInput this) (String_of (default PRICE_MIN min)) in
  let fill_max := Fill (priceMaxInput this) (String_of (default PRICE_MAX max)) in
  let apply := Click (priceApplyBtn this) (Some 5000%Q) in
  let enter := Press (priceMinInput this) "Enter" in
  let filled := h ++ [Ev wait None; Ev fill_min None; Ev fill_max None] in
  act env h wait = None ->
  act env (h ++ [Ev wait None]) fill_min = None ->
  act env (h ++ [Ev wait None; Ev fill_min None]) fill_max = None ->
  act env filled apply = Some e ->
  act env (filled ++ [Ev apply (Some e)]) enter = None ->
  exists tr,
    applyPriceFilter this min max env h
    = (Ok tt, filled ++ [Ev apply (Some e); Ev enter None; Ev (SetTimeout 4000%Q) None] ++ tr)
    /\ PopupScan (page this) (4000 / 7)%Q closeSelectors tr
    /\ gotos tr = 0%nat.
Proof.
  cbv zeta. intros Hwait Hmin Hmax Hclick Henter.
  rewrite applyPriceFilter_unfold.
  assert (Hside : sidebar_path this (default PRICE_MIN min) (default PRICE_MAX max) env h
                  = (Ok tt,
                     (h ++ [Ev (WaitFor (priceMinInput this) "visible" 8000%Q) None;
                            Ev (Fill (priceMinInput this) (String_of (default PRICE_MIN min))) None;
                            Ev (Fill (priceMaxInput this) (String_of (default PRICE_MAX max))) None])
                     ++ [Ev (Click (priceApplyBtn this) (Some 5000%Q)) (Some e);
                         Ev (Press (priceMinInput this) "Enter") None])).
  { unfold sidebar_path, bind, try_catch, await.
    rewrite Hwait, Hmin. rewrite <- app_assoc. cbn [app]. rewrite Hmax.
    rewrite <- app_assoc. cbn [app]. rewrite Hclick, Henter.
    rewrite <- !app_assoc. reflexivity. }
  rewrite Hside.
  destruct (settle_run env this
              ((h ++ [Ev (WaitFor (priceMinInput this) "visible" 8000%Q) None;
                      Ev (Fill (priceMinInput this) (String_of (default PRICE_MIN min))) None;
                      Ev (Fill (priceMaxInput this) (String_of (default PRICE_MAX max))) None])
               ++ [Ev (Click (priceApplyBtn this) (Some 5000%Q)) (Some e);
                   Ev (Press (priceMinInput this) "Enter") None]))
    as [tr [Hrun Hscan]].
  exists tr. rewrite Hrun. split; [rewrite <- !app_assoc; reflexivity|].
  split; [exact Hscan | exact (scan_no_goto _ _ _ _ Hscan)].
Qed.

Lemma applyPriceFilter_enter_fallback_witness :
  let this := constructor MainPage in
  let wait := WaitFor (priceMinInput this) "visible" 8000%Q in
  let fill_min := Fill (priceMinInput this) "500" in
  let fill_max := Fill (priceMaxInput this) "5000" in
  let apply := Click (priceApplyBtn this) (Some 5000%Q) in
  let enter := Press (priceMinInput this) "Enter" in
  let filled := [Ev wait None; Ev fill_min None; Ev fill_max None] in
  act (flaky_clicks 1) filled apply = Some (detached_error 0)
  /\ exists tr,
       applyPriceFilter this None None (flaky_clicks 1) []
       = (Ok tt, filled ++ [Ev apply (Some (detached_error 0)); Ev enter None;
                            Ev (SetTimeout 4000%Q) None] ++ tr)
       /\ PopupScan MainPage (4000 / 7)%Q closeSelectors tr
       /\ gotos tr = 0%nat.
Proof.
  cbv zeta. split; [reflexivity|].
  apply (applyPriceFilter_enter_fallback (flaky_clicks 1) (constructor MainPage)
           None None [] (detached_error 0)); reflexivity.
Defined.

Section MoreOpenFacts.

Variables (env : Env) (this : SearchResultsPage.t).

(** The card [openProduct] clicks, once a first card was seen and the
    count is not zero. *)
Lemma openProduct_clicks_min (index : Z) (h : Log) :
  let h1 := h ++ [Ev (first_card_wait this) None] in
  let count := count_of env h1 (productCards this) in
  act env h (first_card_wait this) = None ->
  act env h1 (Count (productCards this)) = None ->
  count <> 0 ->
  exists r o rest,
    openProduct this (Some index) env h
    = (r, h1 ++ Ev (Count (productCards this)) None
             :: Ev (Click (Nth (productCards this) (Z.min index (count - 1)))
                      (Some 10000%Q)) o
             :: rest).
Proof.
  cbv zeta. intros Hwait Hcount Hnz.
  unfold openProduct, bind, await, await_count, await_new_page, ret, throw.
  cbv zeta. cbn [default]. fold (first_card_wait this). rewrite Hwait, Hcount.
  set (h1 := h ++ [Ev (first_card_wait this) None]) in *.
  set (count := count_of env h1 (productCards this)) in *.
  replace (count =? 0) with false by (symmetry; apply Z.eqb_neq; exact Hnz).
  set (h2 := h1 ++ [Ev (Count (productCards this)) None]).
  set (click := Click _ _).
  assert (Hshape : forall tail, (h2 ++ [Ev click (act env h2 click)]) ++ tail
            = h1 ++ Ev (Count (productCards this)) None
                 :: Ev click (act env h2 click) :: tail)
    by (intros tail; unfold h2; rewrite <- !app_assoc; reflexivity).
  destruct (act env h2 click) as [e|] eqn:Hclick.
  - eexists _, _, []. rewrite <- (Hshape []), app_nil_r. reflexivity.
  - set (h3 := h2 ++ [Ev click None]) in *.
    destruct (act env h3 (WaitForEvent "page")) as [e|];
      [|destruct (new_page env h3) as [tab|]];
      match goal with
      | |- context [act env ?hh (WaitForLoadState ?p ?s ?t)] =>
          destruct (act env hh (WaitForLoadState p s t))
      end;
      eexists _, _, _; rewrite <- !app_assoc, Hshape; reflexivity.
Qed.

End MoreOpenFacts.

(** X13.  An index below the count is used as it is: [openProduct] clamps
    from above only, so a negative index reaches [nth] unchanged. *)
Theorem openProduct_index_below_count (env : Env) (this : SearchResultsPage.t)
    (index : Z) (h : Log) :
  let h1 := h ++ [Ev (first_card_wait this) None] in
  let count := count_of env h1 (productCards this) in
  act env h (first_card_wait this) = None ->
  act env h1 (Count (productCards this)) = None ->
  count <> 0 -> index < count ->
  exists r o rest,
    openProduct this (Some index) env h
    = (r, h1 ++ Ev (Count (productCards this)) None
             :: Ev (Click (Nth (productCards this) index) (Some 10000%Q)) o
             :: rest).
Proof.
  cbv zeta. intros Hwait Hcount Hnz Hlt.
  pose proof (openProduct_clicks_min env this index h Hwait Hcount Hnz) as Hrun.
  cbv zeta in Hrun. rewrite Z.min_l in Hrun by lia. exact Hrun.
Qed.

Lemma openProduct_index_below_count_witness :
  let this := constructor MainPage in
  let h1 := [Ev (first_card_wait this) None] in
  count_of (static_results 3) h1 (productCards this) <> 0
  /\ -1 < count_of (static_results 3) h1 (productCards this)
  /\ exists r o rest,
       openProduct this (Some (-1)) (static_results 3) []
       = (r, h1 ++ Ev (Count (productCards this)) None
                :: Ev (Click (Nth (productCards this) (-1)) (Some 10000%Q)) o
                :: rest).
Proof.
  cbv zeta.
  assert (Hnz : count_of (static_results 3) [Ev (first_card_wait (constructor MainPage)) None]
                  (productCards (constructor MainPage)) <> 0) by discriminate.
  assert (Hlt : -1 < count_of (static_results 3)
                       [Ev (first_card_wait (constructor MainPage)) None]
                       (productCards (constructor MainPage))) by reflexivity.
  split; [exact Hnz|]. split; [exact Hlt|].
  exact (openProduct_index_below_count (static_results 3) (constructor MainPage) (-1) []
           eq_refl eq_refl Hnz Hlt).
Defined.

(* ------------------------------------------------------------------ *)
(** * Counting the products *)

Section CountFacts.

Variables (env : Env) (this : SearchResultsPage.t).

Lemma countProducts_run (h : Log) :
  let wait := first_card_wait this in
  let h1 := h ++ [Ev wait (act env h wait)] in
  countProducts this env h
  = (match act env h1 (Count (productCards this)) with
     | None => Ok (count_of env h1 (productCards this))
     | Some e => Thrown e
     end,
     h1 ++ [Ev (Count (productCards this)) (act env h1 (Count (productCards this)))]).
Proof.
  cbv zeta. unfold countProducts, bind, try_catch, await, await_count, ret.
  fold (first_card_wait this).
  destruct (act env h (first_card_wait this)); destruct (act env _ (Count _)); reflexivity.
Qed.

End CountFacts.

(** X14.  The only error [countProducts] throws is a rejection of
    [count()]: a rejected wait for the first card is logged and the count
    is taken all the same. *)
Theorem countProducts_throws_only_count (env : Env) (this : SearchResultsPage.t)
    (h : Log) (e : JsError) :
  let wait := first_card_wait this in
  fst (countProducts this env h) = Thrown e
  <-> act env (h ++ [Ev wait (act env h wait)]) (Count (productCards this)) = Some e.
Proof.
  cbv zeta. rewrite countProducts_run. cbn [fst].
  destruct (act env _ (Count _)); split; congruence.
Qed.

(** X15.  Once [count()] has resolved, [assertProductCountGreaterThan]
    returns the count when it is greater than the minimum and throws the
    error of the matcher otherwise: with the default minimum of 1 a page
    with a single product fails. *)
Theorem assertProductCountGreaterThan_strict (env : Env) (this : SearchResultsPage.t)
    (minimum : option Z) (h : Log) :
  let wait := first_card_wait this in
  let h1 := h ++ [Ev wait (act env h wait)] in
  let count := count_of env h1 (productCards this) in
  act env h1 (Count (productCards this)) = None ->
  fst (assertProductCountGreaterThan this minimum env h)
  = if default 1 minimum <? count then Ok count
    else Thrown (matcher_error "toBeGreaterThan").
Proof.
  cbv zeta. intros Hcount. unfold assertProductCountGreaterThan. cbv zeta.
  unfold bind at 1. rewrite countProducts_run. cbv zeta. rewrite Hcount.
  unfold bind, expect_that, ret, throw. change MIN_PRODUCT_COUNT with 1.
  destruct (default 1 minimum <? _); reflexivity.
Qed.

Lemma assertProductCountGreaterThan_strict_witness :
  let this := constructor MainPage in
  act (static_results 1) [Ev (first_card_wait this) None] (Count (productCards this)) = None
  /\ fst (assertProductCountGreaterThan this None (static_results 1) [])
     = Thrown (matcher_error "toBeGreaterThan")
  /\ fst (assertProductCountGreaterThan this None (static_results 2) []) = Ok 2.
Proof.
  cbv zeta. split; [reflexivity|]. split.
  - exact (assertProductCountGreaterThan_strict (static_results 1) (constructor MainPage)
             None [] eq_refl).
  - exact (assertProductCountGreaterThan_strict (static_results 2) (constructor MainPage)
             None [] eq_refl).
Defined.

(* ------------------------------------------------------------------ *)
(** * The price range assertions *)

Section RangeFacts.

Variables (env : Env) (min max : Z).

Lemma in_range_checks (price : jsnum) :
  num_ge price (inject_Z min) && num_le price (inject_Z max) = true
  <-> in_range min max price.
Proof.
  unfold in_range. destruct price as [|q]; cbn [num_ge num_le].
  - split; [discriminate|]. intros [q [H _]]. discriminate.
  - rewrite andb_true_iff, !Qle_bool_iff. split.
    + intros [Hlo Hhi]. exists q. auto.
    + intros [q' [Heq [Hlo Hhi]]]. inversion Heq; subst. auto.
Qed.

Lemma assertPricesInRange_run (prices : list jsnum) (h : Log) :
  snd (assertPricesInRange prices min max env h) = h
  /\ (fst (assertPricesInRange prices min max env h) = Ok tt
      <-> Forall (in_range min max) prices).
Proof.
  induction prices as [|price rest [IHlog IHok]].
  - split; [reflexivity|]. split; [constructor | reflexivity].
  - cbn [assertPricesInRange]. unfold bind, expect_that, ret, throw.
    pose proof (in_range_checks price) as Hprice.
    destruct (num_ge price (inject_Z min)); cbn [andb] in Hprice.
    + destruct (num_le price (inject_Z max)).
      * destruct (assertPricesInRange rest min max env h) as [r h'] eqn:Hrest.
        cbn [fst snd] in *. destruct r as [[]|e]; (split; [exact IHlog|]).
        -- split; [|reflexivity]. intros _. constructor; [apply Hprice; reflexivity|].
           apply IHok. reflexivity.
        -- split; [discriminate|]. intros HF. inversion HF; subst.
           apply IHok. assumption.
      * split; [reflexivity|]. split; [discriminate|].
        intros HF. inversion HF; subst. apply Hprice in H1. discriminate.
    + split; [reflexivity|]. split; [discriminate|].
      intros HF. inversion HF; subst. apply Hprice in H1. discriminate.
Qed.

End RangeFacts.


Section SampleFacts.

Variables (env : Env) (pg : Page) (this : SearchResultsPage.t).

Lemma text_or_empty_run (l : Locator) (h : Log) :
  text_or_empty pg l env h = (Ok (label_text pg h l), h).
Proof.
  unfold text_or_empty, try_catch, textContent, read, ret, label_text.
  destruct (text_content pg h l None); reflexivity.
Qed.

Lemma collect_prices_run (todo : list Z) (prices : list jsnum) (h : Log) :
  collect_prices pg this todo prices env h
  = (Ok (prices
         ++ flat_map (fun i =>
                        match parsePrice (label_text pg h (Nth (productPrices this) i)) with
                        | Some price => [price]
                        | None => []
                        end) todo), h).
Proof.
  revert prices. induction todo as [|i rest IH]; intros prices.
  - cbn. rewrite app_nil_r. reflexivity.
  - cbn [collect_prices flat_map]. unfold bind at 1. rewrite text_or_empty_run.
    destruct (parsePrice _) as [price|]; rewrite IH.
    + rewrite <- app_assoc. reflexivity.
    + reflexivity.
Qed.

Lemma assertPricesWithinRange_run (min max sampleSize : option Z) (h : Log) :
  let asked := Count (productPrices this) in
  let h1 := h ++ [Ev asked None] in
  let checkCount := Z.min (count_of env h (productPrices this)) (default 10 sampleSize) in
  act env h asked = None ->
  snd (assertPricesWithinRange pg this min max sampleSize env h) = h1
  /\ (fst (assertPricesWithinRange pg this min max sampleSize env h) = Ok tt
      <-> Forall (in_range (default PRICE_MIN min) (default PRICE_MAX max))
            (sampled_prices pg this h1 checkCount)).
Proof.
  cbv zeta. intros Hcount.
  assert (Hrun : assertPricesWithinRange pg this min max sampleSize env h
                 = (if Nat.eqb
                         (List.length
                            (sampled_prices pg this
                               (h ++ [Ev (Count (productPrices this)) None])
                               (Z.min (count_of env h (productPrices this))
                                  (default 10 sampleSize)))) 0
                    then ret tt
                    else assertPricesInRange
                           (sampled_prices pg this
                              (h ++ [Ev (Count (productPrices this)) None])
                              (Z.min (count_of env h (productPrices this))
                                 (default 10 sampleSize)))
                           (default PRICE_MIN min) (default PRICE_MAX max))
                     env (h ++ [Ev (Count (productPrices this)) None])).
  { unfold assertPricesWithinRange, bind, await_count. rewrite Hcount.
    rewrite collect_prices_run. reflexivity. }
  rewrite Hrun.
  destruct (sampled_prices pg this _ _) as [|price rest].
  - cbn. split; [reflexivity|]. split; [constructor | reflexivity].
  - cbn [List.length Nat.eqb]. apply assertPricesInRange_run.
Qed.

End SampleFacts.

(** X17.  For bounds that are safe integers, once the price labels are
    counted: [assertPricesWithinRange] returns when every price that
    [parsePrice] finds in the first [min(count, sampleSize)] labels is a
    number within the bounds, in particular when no label parses; and it
    throws when one of them is [NaN], or a number at least one below the
    lower or at least one above the upper bound.  Labels past the sample
    are not read. *)
Theorem assertPricesWithinRange_verdict (env : Env) (pg : Page)
    (this : SearchResultsPage.t) (min max sampleSize : option Z) (h : Log) :
  let lo := default PRICE_MIN min in
  let hi := default PRICE_MAX max in
  let asked := Count (productPrices this) in
  let checkCount := Z.min (count_of env h (productPrices this)) (default 10 sampleSize) in
  let prices := sampled_prices pg this (h ++ [Ev asked None]) checkCount in
  safe_integer lo -> safe_integer hi ->
  act env h asked = None ->
  (Forall (in_range lo hi) prices ->
   fst (assertPricesWithinRange pg this min max sampleSize env h) = Ok tt)
  /\ (Exists (far_out lo hi) prices ->
      exists e, fst (assertPricesWithinRange pg this min max sampleSize env h) = Thrown e).
Proof.
  cbv zeta. intros _ _ Hcount.
  destruct (assertPricesWithinRange_run env pg this min max sampleSize h Hcount)
    as [_ Hok].
  split; [apply Hok|]. intros Hfar.
  destruct (fst (assertPricesWithinRange pg this min max sampleSize env h)) as [[]|e];
    [|exists e; reflexivity].
  exfalso. assert (HF := proj1 Hok eq_refl). rewrite Forall_forall in HF.
  apply Exists_exists in Hfar. destruct Hfar as [price [Hin Hout]].
  destruct (HF price Hin) as [q [Hq [Hlo Hhi]]]. subst price.
  destruct Hout as [Hnan | [q' [Hq' Hside]]]; [discriminate|].
  inversion Hq'. subst q'. destruct Hside as [Hbelow | Habove].
  - assert (Hle : (inject_Z (default PRICE_MIN min) <= inject_Z (default PRICE_MIN min - 1))%Q)
      by (eapply Qle_trans; eassumption).
    rewrite <- Zle_Qle in Hle. lia.
  - assert (Hle : (inject_Z (default PRICE_MAX max + 1) <= inject_Z (default PRICE_MAX max))%Q)
      by (eapply Qle_trans; eassumption).
    rewrite <- Zle_Qle in Hle. lia.
Qed.

Lemma assertPricesWithinRange_verdict_witness :
  let this := constructor MainPage in
  let asked := Count (productPrices this) in
  safe_integer (default PRICE_MIN None) /\ safe_integer (default PRICE_MAX None)
  /\ act (static_results 3) [] asked = None
  /\ Forall (in_range 500 5000)
       (sampled_prices (page_of_text "PKR 1,299") this [Ev asked None] 3)
  /\ fst (assertPricesWithinRange (page_of_text "PKR 1,299") this None None None
            (static_results 3) []) = Ok tt
  /\ Exists (far_out 500 5000)
       (sampled_prices (page_of_text "PKR 12,990") this [Ev asked None] 3)
  /\ exists e, fst (assertPricesWithinRange (page_of_text "PKR 12,990") this None None None
                      (static_results 3) []) = Thrown e.
Proof.
  cbv zeta.
  assert (Hlo : safe_integer (default PRICE_MIN None)) by (unfold safe_integer, default, PRICE_MIN; lia).
  assert (Hhi : safe_integer (default PRICE_MAX None))
    by (unfold safe_integer, default, PRICE_MAX; lia).
  assert (Hin : Forall (in_range 500 5000)
                  (sampled_prices (page_of_text "PKR 1,299") (constructor MainPage)
                     [Ev (Count (productPrices (constructor MainPage))) None] 3)).
  { repeat constructor; exists 1299%Q; repeat split; discriminate. }
  assert (Hout : Exists (far_out 500 5000)
                   (sampled_prices (page_of_text "PKR 12,990") (constructor MainPage)
                      [Ev (Count (productPrices (constructor MainPage))) None] 3)).
  { apply Exists_cons_hd. right. exists 12990%Q. split; [reflexivity|].
    right. discriminate. }
  split; [exact Hlo|]. split; [exact Hhi|]. split; [reflexivity|].
  split; [exact Hin|]. split.
  - exact (proj1 (assertPricesWithinRange_verdict (static_results 3)
                    (page_of_text "PKR 1,299") (constructor MainPage) None None None []
                    Hlo Hhi eq_refl) Hin).
  - split; [exact Hout|].
    exact (proj2 (assertPricesWithinRange_verdict (static_results 3)
                    (page_of_text "PKR 12,990") (constructor MainPage) None None None []
                    Hlo Hhi eq_refl) Hout).
Defined.

(** X18.  If one of the sampled price labels begins with "Rs. ", the
    range assertion throws, whatever the range and the other labels. *)
Theorem assertPricesWithinRange_Rs_label (env : Env) (pg : Page)
    (this : SearchResultsPage.t) (min max sampleSize : option Z) (h : Log)
    (i : Z) (rest : string) :
  let asked := Count (productPrices this) in
  let h1 := h ++ [Ev asked None] in
  act env h asked = None ->
  0 <= i < Z.min (count_of env h (productPrices this)) (default 10 sampleSize) ->
  text_content pg h1 (Nth (productPrices this) i) None = Ok ("Rs. " ++ rest)%string ->
  exists e, fst (assertPricesWithinRange pg this min max sampleSize env h) = Thrown e.
Proof.
  cbv zeta. intros Hcount Hi Htext.
  destruct (assertPricesWithinRange_run env pg this min max sampleSize h Hcount)
    as [_ Hok].
  destruct (fst (assertPricesWithinRange pg this min max sampleSize env h)) as [[]|e];
    [|exists e; reflexivity].
  exfalso. assert (HF := proj1 Hok eq_refl). rewrite Forall_forall in HF.
  destruct (HF NaN) as [q [Hq _]]; [|discriminate].
  unfold sampled_prices. apply in_flat_map. exists i. split.
  - unfold indices_below. apply in_map_iff. exists (Z.to_nat i).
    split; [lia|]. apply in_seq. lia.
  - unfold label_text. rewrite Htext, Rs_label_is_NaN. left. reflexivity.
Qed.

Lemma assertPricesWithinRange_Rs_label_witness :
  let this := constructor MainPage in
  act (static_results 3) [] (Count (productPrices this)) = None
  /\ 0 <= 0 < Z.min (count_of (static_results 3) [] (productPrices this)) (default 10 None)
  /\ exists e,
       fst (assertPricesWithinRange (page_of_text "Rs. 1,299") this None None None
              (static_results 3) []) = Thrown e.
Proof.
  cbv zeta.
  assert (Hi : 0 <= 0 < Z.min (count_of (static_results 3) []
                                 (productPrices (constructor MainPage))) (default 10 None))
    by (cbn; lia).
  split; [reflexivity|]. split; [exact Hi|].
  exact (assertPricesWithinRange_Rs_label (static_results 3) (page_of_text "Rs. 1,299")
           (constructor MainPage) None None None [] 0 "1,299" eq_refl Hi eq_refl).
Defined.

(* ------------------------------------------------------------------ *)
(** * The brand filter *)

Section BrandFacts.

Variables (env : Env) (pg : Page) (this : SearchResultsPage.t).

Lemma brand_loop_run (brands : list string) (h : Log) :
  brand_loop pg this brands env h
  = match find (brand_visible pg this h) brands with
    | None => (Ok None, h)
    | Some brand =>
        let click := Click (brandLocator this brand) None in
        match act env h click with
        | None => (Ok (Some brand), h ++ [Ev click None; Ev (SetTimeout 4000%Q) None])
        | Some e => (Thrown e, h ++ [Ev click (Some e)])
        end
    end.
Proof.
  induction brands as [|brand rest IH]; [reflexivity|].
  cbn [brand_loop find]. cbv zeta. unfold bind at 1.
  unfold visible_or_false, try_catch, read, ret, brand_visible.
  destruct (is_visible pg h (brandLocator this brand)) as [[|]|e]; try exact IH.
  unfold bind, await, sleep.
  destruct (act env h (Click (brandLocator this brand) None)); [reflexivity|].
  rewrite <- app_assoc. reflexivity.
Qed.

End BrandFacts.

(** X19.  After its delay of 3000 ms and one scan of the popup dismisser,
    [applyBrandFilter] takes the first brand of the list whose label is
    visible then, and no other: it returns [null] without a click when
    none is visible; it clicks that brand's label, waits 4000 ms and
    returns the brand when the click resolves; and it throws the click's
    rejection, without trying a later brand, when it does not. *)
Theorem applyBrandFilter_first_visible (env : Env) (pg : Page)
    (this : SearchResultsPage.t) (h : Log) :
  exists tr,
    PopupScan (page this) (4000 / 7)%Q closeSelectors tr
    /\ let h1 := h ++ Ev (SetTimeout 3000%Q) None :: tr in
       applyBrandFilter pg this env h
       = match find (brand_visible pg this h1) TARGET_BRANDS with
         | None => (Ok None, h1)
         | Some brand =>
             let click := Click (brandLocator this brand) None in
             match act env h1 click with
             | None => (Ok (Some brand),
                        h1 ++ [Ev click None; Ev (SetTimeout 4000%Q) None])
             | Some e => (Thrown e, h1 ++ [Ev click (Some e)])
             end
         end.
Proof.
  destruct (dismissPopups_run env (page this) (h ++ [Ev (SetTimeout FILTER_WAIT) None]))
    as [tr [Hrun Hscan]].
  exists tr. split; [exact Hscan|]. cbv zeta.
  unfold applyBrandFilter, bind, sleep. rewrite Hrun, <- app_assoc.
  apply brand_loop_run.
Qed.

(** The second brand of the list is taken when the first is not shown. *)
Example applyBrandFilter_takes_Xiaomi :
  let this := constructor MainPage in
  fst (applyBrandFilter (page_of_brands this ["Sony"; "Xiaomi"]) this all_time_out [])
  = Thrown timeout_error
  /\ fst (applyBrandFilter (page_of_brands this ["Sony"; "Xiaomi"]) this all_resolve [])
     = Ok (Some "Xiaomi")
  /\ fst (applyBrandFilter (page_of_brands this ["Haier"]) this all_resolve []) = Ok None.
Proof. vm_compute. repeat split; reflexivity. Qed.

(* ------------------------------------------------------------------ *)
(** * The product detail page *)

Section DetailFacts.

Variables (env : Env) (pg : Page) (this : ProductDetailPage.t).

Lemma num_gt_zero (q : Q) : num_gt (Num q) 0 = true <-> (0 < q)%Q.
Proof.
  cbn [num_gt]. rewrite negb_true_iff. split.
  - intros H. apply Qnot_le_lt. intros Hle. apply Qle_bool_iff in Hle. congruence.
  - intros H. destruct (Qle_bool q 0) eqn:E; [|reflexivity].
    apply Qle_bool_iff in E. exfalso. exact (Qlt_not_le _ _ H E).
Qed.

Lemma assertProductPriceVisible_run (h : Log) :
  ProductDetailPage.assertProductPriceVisible pg this env h
  = (match ProductDetailPage.text_content_of_price pg this h with
     | Thrown _ => Ok tt
     | Ok text =>
         match parsePrice text with
         | None => Ok tt
         | Some price =>
             if num_gt price 0 then Ok tt else Thrown (matcher_error "toBeGreaterThan")
         end
     end, h).
Proof.
  unfold ProductDetailPage.assertProductPriceVisible, ProductDetailPage.getProductPrice,
    ProductDetailPage.text_content_of_price, bind, try_catch, textContent, read, ret,
    expect_that, throw.
  destruct (text_content pg h _ _) as [text|e]; [|reflexivity].
  destruct (parsePrice text) as [price|]; [|reflexivity].
  destruct (num_gt price 0); reflexivity.
Qed.

End DetailFacts.

(** X20.  [assertProductPriceVisible] returns when the price label cannot
    be read, when [parsePrice] answers [null] for it, and when it parses
    to a number that is at least the smallest positive double; it throws
    the error of the matcher when the label parses to zero or to [NaN]. *)
Theorem assertProductPriceVisible_verdict (env : Env) (pg : Page)
    (this : ProductDetailPage.t) (h : Log) :
  let result := fst (ProductDetailPage.assertProductPriceVisible pg this env h) in
  match ProductDetailPage.text_content_of_price pg this h with
  | Thrown _ => result = Ok tt
  | Ok text =>
      (parsePrice text = None -> result = Ok tt)
      /\ (forall q, parsePrice text = Some (Num q) -> (smallest_double <= q)%Q ->
                    result = Ok tt)
      /\ (forall q, parsePrice text = Some (Num q) -> (q == 0)%Q ->
                    result = Thrown (matcher_error "toBeGreaterThan"))
      /\ (parsePrice text = Some NaN ->
          result = Thrown (matcher_error "toBeGreaterThan"))
  end.
Proof.
  cbv zeta. rewrite assertProductPriceVisible_run. cbn [fst].
  destruct (ProductDetailPage.text_content_of_price pg this h) as [text|e];
    [|reflexivity].
  destruct (parsePrice text) as [[|q]|].
  - split; [discriminate|]. split; [discriminate|]. split; [discriminate|].
    intros _. reflexivity.
  - pose proof (num_gt_zero q) as Hq.
    split; [discriminate|]. split; [|split; [|discriminate]].
    + intros q' Heq Hbig. inversion Heq; subst q'.
      replace (num_gt (Num q) 0) with true; [reflexivity|].
      symmetry. apply Hq. eapply Qlt_le_trans; [|exact Hbig]. reflexivity.
    + intros q' Heq Hzero. inversion Heq; subst q'.
      destruct (num_gt (Num q) 0); [|reflexivity].
      exfalso. assert (Hpos : (0 < q)%Q) by (apply Hq; reflexivity).
      rewrite Hzero in Hpos. discriminate Hpos.
  - split; [intros _; reflexivity|]. split; [discriminate|]. split; discriminate.
Qed.

Lemma assertProductPriceVisible_verdict_witness :
  let this := ProductDetailPage.constructor MainPage in
  (smallest_double <= 1299)%Q
  /\ fst (ProductDetailPage.assertProductPriceVisible (page_of_text "PKR 1,299") this
            all_resolve []) = Ok tt
  /\ (0 == 0)%Q
  /\ fst (ProductDetailPage.assertProductPriceVisible (page_of_text "PKR 0.00") this
            all_resolve []) = Thrown (matcher_error "toBeGreaterThan").
Proof.
  cbv zeta.
  assert (Hbig : (smallest_double <= 1299)%Q) by (unfold smallest_double, Qle; cbn; lia).
  assert (Hzero : (0 == 0)%Q) by reflexivity.
  split; [exact Hbig|]. split.
  - exact (proj1 (proj2 (assertProductPriceVisible_verdict all_resolve
                           (page_of_text "PKR 1,299")
                           (ProductDetailPage.constructor MainPage) []))
             1299%Q eq_refl Hbig).
  - split; [exact Hzero|].
    exact (proj1 (proj2 (proj2 (assertProductPriceVisible_verdict all_resolve
                                  (page_of_text "PKR 0.00")
                                  (ProductDetailPage.constructor MainPage) [])))
             0%Q eq_refl Hzero).
Defined.

(** X21.  A price label that begins with "Rs. " fails
    [assertProductPriceVisible]: the [NaN] that [parsePrice] answers is
    not [null], and is not greater than zero. *)
Theorem assertProductPriceVisible_Rs_label (env : Env) (pg : Page)
    (this : ProductDetailPage.t) (h : Log) (rest : string) :
  ProductDetailPage.text_content_of_price pg this h = Ok ("Rs. " ++ rest)%string ->
  ProductDetailPage.assertProductPriceVisible pg this env h
  = (Thrown (matcher_error "toBeGreaterThan"), h).
Proof.
  intros Htext. rewrite assertProductPriceVisible_run, Htext, Rs_label_is_NaN.
  reflexivity.
Qed.

Lemma assertProductPriceVisible_Rs_label_witness :
  ProductDetailPage.text_content_of_price (page_of_text "Rs. 1,299")
    (ProductDetailPage.constructor MainPage) [] = Ok ("Rs. " ++ "1,299")%string
  /\ ProductDetailPage.assertProductPriceVisible (page_of_text "Rs. 1,299")
       (ProductDetailPage.constructor MainPage) all_resolve []
     = (Thrown (matcher_error "toBeGreaterThan"), []).
Proof.
  split; [reflexivity|].
  exact (assertProductPriceVisible_Rs_label all_resolve (page_of_text "Rs. 1,299")
           (ProductDetailPage.constructor MainPage) [] "1,299" eq_refl).
Defined.

Section ShippingFacts.

Lemma prefix_app_l (a b s : string) :
  String.prefix (a ++ b) s = true -> String.prefix a s = true.
Proof.
  revert s. induction a as [|c a IH]; intros s; [destruct s; reflexivity|].
  destruct s as [|d s]; cbn; [discriminate|].
  destruct (ascii_dec c d); [apply IH | discriminate].
Qed.

Lemma includes_app_l (a b text : string) :
  includes text (a ++ b) = true -> includes text a = true.
Proof.
  induction text as [|c text IH]; cbn [includes]; rewrite !orb_true_iff.
  - intros [H | H]; [left; exact (prefix_app_l _ _ _ H) | discriminate].
  - intros [H | H]; [left; exact (prefix_app_l _ _ _ H) | right; exact (IH H)].
Qed.

Lemma some_keyword_free (text : string) :
  ProductDetailPage.some_keyword text = includes text "free".
Proof.
  unfold ProductDetailPage.some_keyword, FREE_SHIPPING_KEYWORDS. cbn [existsb].
  destruct (includes text "free") eqn:Hfree; [rewrite !orb_true_r; reflexivity|].
  rewrite !orb_false_r.
  destruct (includes text "free shipping") eqn:H1.
  - apply (includes_app_l "free" " shipping") in H1. congruence.
  - destruct (includes text "free delivery") eqn:H2; [|reflexivity].
    apply (includes_app_l "free" " delivery") in H2. congruence.
Qed.

Variables (toLowerCase : string -> string) (env : Env) (pg : Page)
  (this : ProductDetailPage.t).

Lemma widget_loop_run (todo : list Z) (h : Log) :
  ProductDetailPage.widget_loop toLowerCase pg this todo env h
  = (Ok (existsb (fun i => includes
                             (toLowerCase
                                (label_text pg h
                                   (Nth (ProductDetailPage.shippingSection this) i)))
                             "free") todo), h).
Proof.
  induction todo as [|i rest IH]; [reflexivity|].
  cbn [ProductDetailPage.widget_loop existsb]. unfold bind at 1.
  rewrite text_or_empty_run, some_keyword_free.
  destruct (includes _ "free"); [reflexivity | exact IH].
Qed.

End ShippingFacts.

(** X22.  The three shipping keywords come to one: a text includes one of
    "free shipping", "free delivery" and "free" exactly when it includes
    "free". *)
Theorem shipping_keywords_are_free (text : string) :
  ProductDetailPage.some_keyword text = includes text "free".
Proof. apply some_keyword_free. Qed.

(** X23.  [isFreeShippingAvailable] throws only what [count()] rejects
    with.  Otherwise it answers whether the lower-cased text of one of the
    shipping widgets or of the page body includes "free", an unreadable
    text counting as empty; [softCheckFreeShipping] answers the same. *)
Theorem isFreeShippingAvailable_answer (toLowerCase : string -> string) (env : Env)
    (pg : Page) (this : ProductDetailPage.t) (h : Log) :
  let shipping := ProductDetailPage.shippingSection this in
  let asked := Count shipping in
  let h1 := h ++ [Ev asked (act env h asked)] in
  ProductDetailPage.isFreeShippingAvailable toLowerCase pg this env h
  = (match act env h asked with
     | Some e => Thrown e
     | None =>
         Ok (existsb (fun i => includes (toLowerCase (label_text pg h1 (Nth shipping i)))
                                 "free")
               (indices_below (count_of env h shipping))
             || includes (toLowerCase (label_text pg h1 (ProductDetailPage.pageBody this)))
                  "free")
     end, h1)
  /\ ProductDetailPage.softCheckFreeShipping toLowerCase pg this env h
     = ProductDetailPage.isFreeShippingAvailable toLowerCase pg this env h.
Proof.
  cbv zeta. split.
  - unfold ProductDetailPage.isFreeShippingAvailable, bind, await_count.
    destruct (act env h _) as [e|]; [reflexivity|].
    rewrite widget_loop_run. destruct (existsb _ _); [reflexivity|].
    rewrite text_or_empty_run, some_keyword_free. reflexivity.
  - unfold ProductDetailPage.softCheckFreeShipping, bind, ret.
    destruct (ProductDetailPage.isFreeShippingAvailable toLowerCase pg this env h)
      as [[b|e] h']; reflexivity.
Qed.

(* ------------------------------------------------------------------ *)
(** * Loading a page *)

(** X24.  [HomePage.goto] throws exactly when its navigation rejects, and
    throws that rejection: a network that never goes idle and the popup
    dismisser cannot fail it. *)
Theorem goto_throws_iff (env : Env) (page : PageRef) (h : Log) (e : JsError) :
  fst (HomePage.goto page env h) = Thrown e
  <-> act env h (Goto BASE_URL "domcontentloaded" 40000%Q) = Some e.
Proof.
  unfold HomePage.goto, bind, try_catch, await, ret.
  destruct (act env h (Goto _ _ _)) as [e'|]; [cbn; split; congruence|].
  destruct (act env _ (WaitForLoadState _ _ _));
    match goal with
    | |- context [dismissPopups page None env ?hh] =>
        destruct (dismissPopups_run env page hh) as [tr' [Hrun' _]]; rewrite Hrun'
    end; cbn; split; discriminate.
Qed.

(** X25.  [ProductDetailPage.waitForPageLoad] throws exactly when its wait
    for the load state rejects, and throws that rejection. *)
Theorem waitForPageLoad_throws_iff (env : Env) (this : ProductDetailPage.t)
    (h : Log) (e : JsError) :
  fst (ProductDetailPage.waitForPageLoad this env h) = Thrown e
  <-> act env h (WaitForLoadState (ProductDetailPage.page this) "domcontentloaded"
                   30000%Q) = Some e.
Proof.
  unfold ProductDetailPage.waitForPageLoad, bind, await, sleep.
  destruct (act env h (WaitForLoadState _ _ _)) as [e'|]; [cbn; split; congruence|].
  match goal with
  | |- context [dismissPopups ?p None env ?hh] =>
      destruct (dismissPopups_run env p hh) as [tr [Hrun _]]; rewrite Hrun
  end.
  cbn. split; discriminate.
Qed.
